(** * aeternity.aens: the AENS name-claim client

    A shallow embedding of [src/aeternity/aens.py] (class [AEName]) and the
    properties of its name lifecycle: validation helpers, the identifier
    codec, and the preclaim / claim / update / transfer / revoke methods
    run against a node gateway. *)

From Stdlib Require Import ZArith List String Ascii Bool Lia.
From Stdlib.Strings Require Import Byte.
Import ListNotations.

Set Warnings "-register-all".

Local Open Scope string_scope.
Local Open Scope Z_scope.

(** ** Python values *)

(** The JSON-like values that travel between the client and the node. A
    Python [dict] keeps insertion order, so it is an association list; lookup
    takes the first binding of a key. *)
Inductive pyval : Type :=
| PyNone
| PyBool (b : bool)
| PyInt (z : Z)
| PyStr (s : string)
| PyList (l : list pyval)
| PyDict (d : list (string * pyval)).

Definition dict : Type := list (string * pyval).

Fixpoint dict_get (key : string) (d : dict) : option pyval :=
  match d with
  | [] => None
  | (k, v) :: d' => if String.eqb key k then Some v else dict_get key d'
  end.

(** [key in d] *)
Definition dict_contains (key : string) (d : dict) : bool :=
  match dict_get key d with
  | Some _ => true
  | None => false
  end.

(** [s.startswith(p)] and [s.endswith(p)] for one candidate [p]. *)
Definition startswith (s p : string) : bool := String.prefix p s.

Definition endswith (s p : string) : bool :=
  let n := String.length s in
  let m := String.length p in
  (m <=? n)%nat && String.eqb (String.substring (n - m) m s) p.

(** ** Exceptions *)

(** [NameStatus] *)
Inductive NameStatus : Type :=
| REVOKED
| UNKNOWN
| AVAILABLE
| PRECLAIMED
| CLAIMED
| TRANSFERRED.

Definition NameStatus_eqb (a b : NameStatus) : bool :=
  match a, b with
  | REVOKED, REVOKED | UNKNOWN, UNKNOWN | AVAILABLE, AVAILABLE
  | PRECLAIMED, PRECLAIMED | CLAIMED, CLAIMED | TRANSFERRED, TRANSFERRED => true
  | _, _ => false
  end.

(** The exception classes the module raises or lets through. The first
    block is [aeternity.exceptions]; the second the builtin errors of the
    Python operations used ([d[k]], [assert], [str.encode], [json.loads]). *)
Inductive exn : Type :=
| NameNotAvailable (payload : pyval)
| PreclaimFailed (response : dict)
| TooEarlyClaim (msg : string)
| MissingPreclaim (msg : string)
| UpdateError (response : dict)
| AENSException (msg : string) (payload : dict)
| ValueError (msg : string)
| AssertionError (msg : string)
| KeyError (key : string)
| TypeError
| JSONDecodeError
| UnicodeEncodeError
| CollaboratorFailure (descr : string).

(** Modelled from the spec: the node gateway ([aeternity.epoch.EpochClient])
    and the signing service ([aeternity.signing]) are not part of the module.
    Following the gateway contract, a collaborator either answers, reports
    that a name is not found, or fails in a way this module never handles (a
    transport or signing failure, which propagates unmodified). *)
Inductive ext_exn : Type :=
| NotFound (payload : pyval)
| Failure (descr : string).

Definition exn_of_ext (e : ext_exn) : exn :=
  match e with
  | NotFound p => NameNotAvailable p
  | Failure d => CollaboratorFailure d
  end.

(** Pure code that may raise. *)
Definition result (A : Type) : Type := (exn + A)%type.

Definition rbind {A B : Type} (r : result A) (f : A -> result B) : result B :=
  match r with
  | inl e => inl e
  | inr a => f a
  end.

(** [d[key]] *)
Definition getitem (d : dict) (key : string) : result pyval :=
  match dict_get key d with
  | Some v => inr v
  | None => inl (KeyError key)
  end.

(** ** Library functions the module imports *)

(** [base58.b58encode_check], [json.dumps], [json.loads] (with [None] for a
    text that does not parse) and the constructor of
    [aeternity.signing.SignableTransaction]. *)
Class Externals : Type := {
  b58encode_check : list byte -> string;
  json_dumps : pyval -> string;
  json_loads : string -> option pyval;
  SignableTransaction : dict -> ext_exn + pyval
}.

(** [s.encode('ascii')]: every character must be below 128. *)
Definition is_ascii (s : string) : bool :=
  forallb (fun c => (nat_of_ascii c <? 128)%nat) (list_ascii_of_string s).

Definition encode_ascii (s : string) : result (list byte) :=
  if is_ascii s then inr (list_byte_of_string s) else inl UnicodeEncodeError.

(** ** Identifier codec and validation (class methods of [AEName]) *)

Section Codec.
Context `{Externals}.

Definition validate_address (address : string) (raise_exception : bool)
  : result bool :=
  if negb (startswith address "ak$" || startswith address "ok$") then
    if raise_exception then
      inl (ValueError "pointer addresses must start with in ak$")
    else inr false
  else inr true.

Definition validate_name (domain : string) (raise_exception : bool)
  : result bool :=
  if negb (endswith domain ".aet" || endswith domain ".test") then
    if raise_exception then inl (ValueError "AENS TLDs must end in .aet")
    else inr false
  else inr true.

(** [not validate_address(..) or not validate_name(..)]: the right operand
    is evaluated only when the left one is false. *)
Definition validate_pointer (pointer : string) : result bool :=
  rbind (validate_address pointer false) (fun a =>
  if negb a then inr true
  else rbind (validate_name pointer false) (fun n => inr (negb n))).

Definition _encode_name (name : string) : result string :=
  rbind (encode_ascii name) (fun bs => inr ("nm$" ++ b58encode_check bs)).

End Codec.

(** ** The [AEName] object and the world it runs in *)

Record AEName : Type := mkAEName {
  domain : string;
  status : NameStatus;
  (* set after preclaimed: *)
  preclaimed_block_height : option Z;
  preclaimed_commitment_hash : option pyval;
  preclaim_salt : option Z;
  (* set after claimed *)
  name_ttl : pyval;
  pointers : pyval
}.

(** A method call on a collaborator ([self.client] or the [keypair]). *)
Inductive Call : Type :=
| external_http_get_call (endpoint : string) (params : dict)
| external_http_post_call (endpoint : string) (json : dict)
| internal_http_post_call (endpoint : string) (json : dict)
| get_height_call
| wait_for_next_block_call
| send_signed_transaction_call (signed_transaction : pyval)
| get_address_call
| sign_transaction_call (transaction : pyval).

(** The gateway is an object with a state of its own: each method takes the
    state and gives its answer (or its failure) and the next state. *)
Class EpochClient (G : Type) : Type := {
  external_http_get : string -> dict -> G -> (ext_exn + dict) * G;
  external_http_post : string -> dict -> G -> (ext_exn + dict) * G;
  internal_http_post : string -> dict -> G -> (ext_exn + dict) * G;
  get_height : G -> (ext_exn + Z) * G;
  wait_for_next_block : G -> (ext_exn + unit) * G;
  send_signed_transaction : pyval -> G -> (ext_exn + unit) * G
}.

(** The signing key handed to [preclaim] and [claim]. *)
Record KeyPair : Type := mkKeyPair {
  get_address : ext_exn + pyval;
  sign_transaction : pyval -> ext_exn + (pyval * pyval)
}.

(** [aeternity.oracle.Oracle], as far as [update] looks at it. *)
Record Oracle : Type := mkOracle { oracle_id : option string }.

(** The [target] argument of [update]: an [Oracle] or a string. *)
Inductive Target : Type :=
| OracleTarget (o : Oracle)
| StrTarget (s : string).

(** The mutable state a method runs in: the object itself, the gateway, the
    collaborator calls made so far (oldest first) and the future draws of
    [random]. *)
Record World (G : Type) : Type := mkWorld {
  self : AEName;
  client : G;
  calls : list Call;
  entropy : list Z
}.
Arguments mkWorld {G} _ _ _ _.
Arguments self {G} _.
Arguments client {G} _.
Arguments calls {G} _.
Arguments entropy {G} _.

(** ** A state and exception monad for the methods *)

Definition M (G A : Type) : Type := World G -> result A * World G.

Definition ret {G A : Type} (a : A) : M G A := fun w => (inr a, w).

Definition raise {G A : Type} (e : exn) : M G A := fun w => (inl e, w).

Definition bind {G A B : Type} (m : M G A) (f : A -> M G B) : M G B :=
  fun w =>
    match m w with
    | (inl e, w') => (inl e, w')
    | (inr a, w') => f a w'
    end.

Declare Scope py_scope.
Delimit Scope py_scope with py.
Notation "x <- m ;; k" := (bind m (fun x => k))
  (at level 61, m at next level, right associativity) : py_scope.
Notation "' pat <- m ;; k" := (bind m (fun x => match x with pat => k end))
  (at level 61, pat pattern, m at next level, right associativity) : py_scope.
Notation "m ;; k" := (bind m (fun _ => k))
  (at level 61, right associativity) : py_scope.

(** [try: body except ..: handler]: [handler e] is [None] for an exception
    no [except] clause matches. *)
Definition try_except {G A : Type} (body : M G A)
    (handler : exn -> option (M G A)) : M G A :=
  fun w =>
    match body w with
    | (inl e, w') =>
        match handler e with
        | Some h => h w'
        | None => (inl e, w')
        end
    | (inr a, w') => (inr a, w')
    end.

Definition lift {G A : Type} (r : result A) : M G A := fun w => (r, w).

(** Reading and assigning the attributes of [self]. *)
Definition get {G A : Type} (field : AEName -> A) : M G A :=
  fun w => (inr (field (self w)), w).

Definition modify {G : Type} (f : AEName -> AEName) : M G unit :=
  fun w => (inr tt, mkWorld (f (self w)) (client w) (calls w) (entropy w)).

Definition with_status (s : NameStatus) (n : AEName) : AEName :=
  mkAEName (domain n) s (preclaimed_block_height n)
    (preclaimed_commitment_hash n) (preclaim_salt n) (name_ttl n) (pointers n).

Definition with_preclaimed_block_height (h : option Z) (n : AEName) : AEName :=
  mkAEName (domain n) (status n) h
    (preclaimed_commitment_hash n) (preclaim_salt n) (name_ttl n) (pointers n).

Definition with_preclaim_salt (s : option Z) (n : AEName) : AEName :=
  mkAEName (domain n) (status n) (preclaimed_block_height n)
    (preclaimed_commitment_hash n) s (name_ttl n) (pointers n).

Definition with_name_ttl (t : pyval) (n : AEName) : AEName :=
  mkAEName (domain n) (status n) (preclaimed_block_height n)
    (preclaimed_commitment_hash n) (preclaim_salt n) t (pointers n).

Definition with_pointers (p : pyval) (n : AEName) : AEName :=
  mkAEName (domain n) (status n) (preclaimed_block_height n)
    (preclaimed_commitment_hash n) (preclaim_salt n) (name_ttl n) p.

(** A method call on the gateway: recorded, run on the gateway's state, and
    its failure raised as the exception it stands for. *)
Definition on_client {G A : Type} (c : Call)
    (method : G -> (ext_exn + A) * G) : M G A :=
  fun w =>
    let (r, g) := method (client w) in
    let w' := mkWorld (self w) g (calls w ++ [c]) (entropy w) in
    match r with
    | inl e => (inl (exn_of_ext e), w')
    | inr a => (inr a, w')
    end.

(** A method call on the key pair, which has no state. *)
Definition on_keypair {G A : Type} (c : Call) (r : ext_exn + A) : M G A :=
  fun w =>
    let w' := mkWorld (self w) (client w) (calls w ++ [c]) (entropy w) in
    match r with
    | inl e => (inl (exn_of_ext e), w')
    | inr a => (inr a, w')
    end.

(** [random.randint(lo, hi)]: the next draw, brought into [lo..hi]. *)
Definition randint {G : Type} (lo hi : Z) : M G Z :=
  fun w =>
    match entropy w with
    | [] => (inr lo, w)
    | d :: ds =>
        (inr (lo + d mod (hi - lo + 1)),
         mkWorld (self w) (client w) (calls w) ds)
    end.

Definition opt_int (o : option Z) : pyval :=
  match o with
  | Some z => PyInt z
  | None => PyNone
  end.

(** ** The methods of [AEName] *)

Section Methods.
Context `{Externals} {G : Type} `{EpochClient G}.

Local Open Scope py_scope.

(** [AEName(domain, client)]: the client is the one of the world. *)
Definition __init__ (domain : string) : result AEName :=
  rbind (validate_name domain true) (fun _ =>
  inr (mkAEName domain UNKNOWN None None None (PyInt 0) (PyList []))).

Definition name_hash : M G string :=
  d <- get domain ;;
  lift (_encode_name d).

(** [json.loads(v)] *)
Definition loads (v : pyval) : result pyval :=
  match v with
  | PyStr s =>
      match json_loads s with
      | Some x => inr x
      | None => inl JSONDecodeError
      end
  | _ => inl TypeError
  end.

Definition update_status : M G unit :=
  try_except
    (d <- get domain ;;
     let params := [("name", PyStr d)] in
     response <- on_client (external_http_get_call "name" params)
                   (external_http_get "name" params) ;;
     modify (with_status CLAIMED) ;;
     ttl <- lift (getitem response "name_ttl") ;;
     modify (with_name_ttl ttl) ;;
     p <- lift (getitem response "pointers") ;;
     ps <- lift (loads p) ;;
     modify (with_pointers ps))
    (fun e =>
       match e with
       | NameNotAvailable _ =>
           (* e.g. if the status is already PRECLAIMED or CLAIMED, don't
              reset it to AVAILABLE. *)
           Some (s <- get status ;;
                 if NameStatus_eqb s UNKNOWN
                 then modify (with_status AVAILABLE)
                 else ret tt)
       | _ => None
       end).

Definition is_available : M G bool :=
  update_status ;;
  s <- get status ;;
  ret (NameStatus_eqb s AVAILABLE).

Definition check_claimed : M G bool :=
  update_status ;;
  s <- get status ;;
  ret (NameStatus_eqb s CLAIMED).

Definition _get_commitment_hash (salt : Z) : M G pyval :=
  d <- get domain ;;
  let params := [("name", PyStr d); ("salt", PyInt salt)] in
  response <- on_client (external_http_get_call "commitment-hash" params)
                (external_http_get "commitment-hash" params) ;;
  try_except
    (lift (getitem response "commitment"))
    (fun e =>
       match e with
       | KeyError _ => Some (raise (PreclaimFailed response))
       | _ => None
       end).

Definition preclaim (keypair : KeyPair) (fee : Z) (salt : option Z)
  : M G (pyval * pyval) :=
  (* check which block we used to create the preclaim *)
  h <- on_client get_height_call get_height ;;
  modify (with_preclaimed_block_height (Some h)) ;;
  own_salt <-
    match salt with
    | Some s => ret s
    | None => randint 0 (2 ^ 64)
    end ;;
  modify (with_preclaim_salt (Some own_salt)) ;;
  commitment_hash <- _get_commitment_hash own_salt ;;
  account <- on_keypair get_address_call (get_address keypair) ;;
  let json := [("commitment", commitment_hash); ("fee", PyInt fee);
               ("account", account)] in
  preclaim_transaction <-
    on_client (external_http_post_call "/tx/name/preclaim" json)
      (external_http_post "/tx/name/preclaim" json) ;;
  signable_preclaim_tx <-
    lift (match SignableTransaction preclaim_transaction with
          | inl e => inl (exn_of_ext e)
          | inr t => inr t
          end) ;;
  ' (signed_transaction, b58signature) <-
    on_keypair (sign_transaction_call signable_preclaim_tx)
      (sign_transaction keypair signable_preclaim_tx) ;;
  on_client (send_signed_transaction_call signed_transaction)
    (send_signed_transaction signed_transaction) ;;
  modify (with_status PRECLAIMED) ;;
  tx_hash <- lift (getitem preclaim_transaction "tx_hash") ;;
  final_salt <- get preclaim_salt ;;
  ret (tx_hash, opt_int final_salt).

Definition claim (keypair : KeyPair) (fee : Z) : M G (pyval * pyval) :=
  pbh <- get preclaimed_block_height ;;
  match pbh with
  | None =>
      raise (MissingPreclaim "You must call preclaim before claiming a name")
  | Some preclaimed =>
      current_block_height <- on_client get_height_call get_height ;;
      if preclaimed >=? current_block_height then
        raise (TooEarlyClaim
                 ("You must wait for one block to call claim." ++
                  "Use `claim_blocking` if you have a lot of time on your hands"))
      else
        account <- on_keypair get_address_call (get_address keypair) ;;
        d <- get domain ;;
        name <- lift (_encode_name d) ;;
        name_salt <- get preclaim_salt ;;
        let json := [("account", account); ("name", PyStr name);
                     ("name_salt", opt_int name_salt); ("fee", PyInt fee)] in
        claim_transaction <-
          on_client (external_http_post_call "/tx/name/claim" json)
            (external_http_post "/tx/name/claim" json) ;;
        signable_claim_tx <-
          lift (match SignableTransaction claim_transaction with
                | inl e => inl (exn_of_ext e)
                | inr t => inr t
                end) ;;
        ' (signed_transaction, b58signature) <-
          on_keypair (sign_transaction_call signable_claim_tx)
            (sign_transaction keypair signable_claim_tx) ;;
        on_client (send_signed_transaction_call signed_transaction)
          (send_signed_transaction signed_transaction) ;;
        modify (with_status CLAIMED) ;;
        tx_hash <- lift (getitem claim_transaction "tx_hash") ;;
        final_salt <- get preclaim_salt ;;
        ret (tx_hash, opt_int final_salt)
  end.

Definition claim_blocking (keypair : KeyPair) (fee : Z) : M G unit :=
  try_except
    (claim keypair fee ;; ret tt)
    (fun e =>
       match e with
       | TooEarlyClaim _ =>
           Some (on_client wait_for_next_block_call wait_for_next_block ;;
                 claim keypair fee ;;
                 ret tt)
       | _ => None
       end).

Definition full_claim_blocking (keypair : KeyPair)
    (preclaim_fee claim_fee : Z) : M G unit :=
  available <- is_available ;;
  (if negb available then
     d <- get domain ;;
     raise (NameNotAvailable (PyStr d))
   else ret tt) ;;
  preclaim keypair preclaim_fee None ;;
  claim_blocking keypair claim_fee.

Definition update (target : Target) (ttl fee : Z) : M G unit :=
  s <- get status ;;
  (if NameStatus_eqb s CLAIMED then ret tt
   else raise (AssertionError "Must be claimed to update pointer")) ;;
  target <-
    match target with
    | OracleTarget o =>
        match oracle_id o with
        | None =>
            raise (ValueError
                     "You must register the oracle before using it as target")
        | Some id => ret id
        end
    | StrTarget t => ret t
    end ;;
  let new_pointers :=
    if startswith target "ak" then [("account_pubkey", PyStr target)]
    else [("oracle_pubkey", PyStr target)] in
  nh <- name_hash ;;
  current_ttl <- get name_ttl ;;
  let json := [("name_hash", PyStr nh); ("name_ttl", current_ttl);
               ("ttl", PyInt ttl);
               ("pointers", PyStr (json_dumps (PyDict new_pointers)));
               ("fee", PyInt fee)] in
  response <- on_client (internal_http_post_call "name-update-tx" json)
                (internal_http_post "name-update-tx" json) ;;
  if dict_contains "name_hash" response then
    modify (with_pointers (PyDict new_pointers))
  else raise (UpdateError response).

Definition transfer_ownership (receipient_pubkey : string) (fee : Z)
  : M G unit :=
  nh <- name_hash ;;
  let json := [("name_hash", PyStr nh);
               ("recipient_pubkey", PyStr receipient_pubkey);
               ("fee", PyInt fee)] in
  response <- on_client (internal_http_post_call "name-transfer-tx" json)
                (internal_http_post "name-transfer-tx" json) ;;
  (if negb (dict_contains "name_hash" response) then
     raise (AENSException "transfer ownership failed" response)
   else ret tt) ;;
  modify (with_status TRANSFERRED).

Definition revoke (fee : Z) : M G unit :=
  nh <- name_hash ;;
  let json := [("name_hash", PyStr nh); ("fee", PyInt fee)] in
  response <- on_client (internal_http_post_call "name-revoke-tx" json)
                (internal_http_post "name-revoke-tx" json) ;;
  if dict_contains "name_hash" response then
    modify (with_status REVOKED)
  else raise (AENSException "Error revoking name" response).

End Methods.

(** The message of [TooEarlyClaim] (two adjacent literals in the source). *)
Definition too_early_msg : string :=
  "You must wait for one block to call claim." ++
  "Use `claim_blocking` if you have a lot of time on your hands".

(** The string [update] works with once an [Oracle] has been unwrapped. *)
Definition target_id (target : Target) : option string :=
  match target with
  | OracleTarget o => oracle_id o
  | StrTarget t => Some t
  end.

Definition pointers_for (t : string) : dict :=
  if startswith t "ak" then [("account_pubkey", PyStr t)]
  else [("oracle_pubkey", PyStr t)].

(** ** Driving a name through a sequence of method calls *)

(** One call of a public method. *)
Inductive Op : Type :=
| update_status_op
| is_available_op
| check_claimed_op
| full_claim_blocking_op (keypair : KeyPair) (preclaim_fee claim_fee : Z)
| preclaim_op (keypair : KeyPair) (fee : Z) (salt : option Z)
| claim_blocking_op (keypair : KeyPair) (fee : Z)
| claim_op (keypair : KeyPair) (fee : Z)
| update_op (target : Target) (ttl fee : Z)
| transfer_ownership_op (receipient_pubkey : string) (fee : Z)
| revoke_op (fee : Z).

Section Driver.
Context `{Externals} {G : Type} `{EpochClient G}.

(** The world a method leaves behind, whether it returned or raised. *)
Definition exec {A : Type} (m : M G A) (w : World G) : World G := snd (m w).

Definition run_op (o : Op) (w : World G) : World G :=
  match o with
  | update_status_op => exec update_status w
  | is_available_op => exec is_available w
  | check_claimed_op => exec check_claimed w
  | full_claim_blocking_op k pf cf => exec (full_claim_blocking k pf cf) w
  | preclaim_op k fee salt => exec (preclaim k fee salt) w
  | claim_blocking_op k fee => exec (claim_blocking k fee) w
  | claim_op k fee => exec (claim k fee) w
  | update_op t ttl fee => exec (update t ttl fee) w
  | transfer_ownership_op r fee => exec (transfer_ownership r fee) w
  | revoke_op fee => exec (revoke fee) w
  end.

(** The caller goes on with the same object after a failed call. *)
Fixpoint run_ops (os : list Op) (w : World G) : World G :=
  match os with
  | [] => w
  | o :: os' => run_ops os' (run_op o w)
  end.

(** [m] changes the object only along [R], whether it returns or raises. *)
Definition respects {A : Type} (R : AEName -> AEName -> Prop) (m : M G A)
  : Prop :=
  forall w, R (self w) (self (exec m w)).

(** [m] only appends to the call log, and only calls that satisfy [P]. *)
Definition emits {A : Type} (P : Call -> bool) (m : M G A) : Prop :=
  forall w,
    exists l, calls (exec m w) = (calls w ++ l)%list /\ forallb P l = true.

End Driver.

(** The status changes a method other than [transfer_ownership] and [revoke]
    can make: none, UNKNOWN to AVAILABLE, or anything to PRECLAIMED or
    CLAIMED. *)
Definition local_step (s s' : NameStatus) : bool :=
  NameStatus_eqb s s' ||
  match s, s' with
  | UNKNOWN, AVAILABLE => true
  | _, PRECLAIMED => true
  | _, CLAIMED => true
  | _, _ => false
  end.

Definition status_step (n n' : AEName) : Prop :=
  local_step (status n) (status n') = true.

Definition is_transfer_ownership (o : Op) : bool :=
  match o with transfer_ownership_op _ _ => true | _ => false end.

Definition is_preclaim (o : Op) : bool :=
  match o with preclaim_op _ _ _ => true | _ => false end.

(** The statuses a call can assign: the [self.status = ...] statements of
    the method and of the methods it calls. *)
Definition sets_status (o : Op) (t : NameStatus) : bool :=
  match o, t with
  | (update_status_op | is_available_op | check_claimed_op),
    (CLAIMED | AVAILABLE) => true
  | full_claim_blocking_op _ _ _, (CLAIMED | AVAILABLE | PRECLAIMED) => true
  | preclaim_op _ _ _, PRECLAIMED => true
  | (claim_op _ _ | claim_blocking_op _ _), CLAIMED => true
  | transfer_ownership_op _ _, TRANSFERRED => true
  | revoke_op _, REVOKED => true
  | _, _ => false
  end.

Definition is_revoke (o : Op) : bool :=
  match o with revoke_op _ => true | _ => false end.

(** The calls that leave a CLAIMED status alone. *)
Definition keeps_claimed (o : Op) : bool :=
  negb (is_preclaim o || is_transfer_ownership o || is_revoke o).

(** The calls that refresh the object from the registry, and the calls
    that run a preclaim. *)
Definition reads_registry (o : Op) : bool :=
  match o with
  | update_status_op | is_available_op | check_claimed_op
  | full_claim_blocking_op _ _ _ => true
  | _ => false
  end.

Definition runs_preclaim (o : Op) : bool :=
  match o with
  | preclaim_op _ _ _ | full_claim_blocking_op _ _ _ => true
  | _ => false
  end.

Definition waits_for_block (o : Op) : bool :=
  match o with
  | claim_blocking_op _ _ | full_claim_blocking_op _ _ _ => true
  | _ => false
  end.

Definition is_lookup (c : Call) : bool :=
  match c with
  | external_http_get_call endpoint _ => String.eqb endpoint "name"
  | _ => false
  end.

Definition is_internal_post (c : Call) : bool :=
  match c with internal_http_post_call _ _ => true | _ => false end.

Definition is_update (o : Op) : bool :=
  match o with update_op _ _ _ => true | _ => false end.

(** How often a call occurs in a log. *)
Definition is_get_height (c : Call) : bool :=
  match c with get_height_call => true | _ => false end.

Definition is_wait_for_next_block (c : Call) : bool :=
  match c with wait_for_next_block_call => true | _ => false end.

Definition count (p : Call -> bool) (l : list Call) : nat :=
  List.length (filter p l).

(** Answers of the node used in the concrete runs: a response that echoes
    the name hash, one that does not, and an unsigned transaction. *)
Definition echo : dict := [("name_hash", PyStr "nm$alice.test")].

Definition rejection : dict := [("reason", PyStr "rejected")].

Definition receipt : dict := [("tx_hash", PyStr "th$1")].

Definition commitment : dict := [("commitment", PyStr "cm$1")].

Definition record : dict := [("name_ttl", PyInt 500); ("pointers", PyStr "[]")].

(** ** A simulated node, for running the methods on concrete inputs *)

Module Sim.

(** The node has a block height and a queue of answers to HTTP requests;
    waiting for the next block moves the height by one. *)
Record Node : Type := mkNode {
  height : Z;
  replies : list (ext_exn + dict)
}.

Definition http (g : Node) : (ext_exn + dict) * Node :=
  match replies g with
  | [] => (inl (Failure "connection closed"), g)
  | r :: rs => (r, mkNode (height g) rs)
  end.

#[global] Instance node_client : EpochClient Node := {
  external_http_get := fun _ _ g => http g;
  external_http_post := fun _ _ g => http g;
  internal_http_post := fun _ _ g => http g;
  get_height := fun g => (inr (height g), g);
  wait_for_next_block := fun g => (inr tt, mkNode (height g + 1) (replies g));
  send_signed_transaction := fun _ g => (inr tt, g)
}.

(** Stand-ins for the library functions: an injective encoding of bytes,
    and a serialiser and parser that know the two empty containers. *)
#[global] Instance externals : Externals := {
  b58encode_check := string_of_list_byte;
  json_dumps := fun v =>
    match v with
    | PyList [] => "[]"
    | PyDict [] => "{}"
    | _ => "null"
    end;
  json_loads := fun s =>
    if String.eqb s "[]" then Some (PyList [])
    else if String.eqb s "{}" then Some (PyDict [])
    else None;
  SignableTransaction := fun tx => inr (PyDict tx)
}.

Definition keypair : KeyPair :=
  mkKeyPair (inr (PyStr "ak$alice"))
    (fun tx => inr (PyList [tx; PyStr "sg$alice"], PyStr "sg$alice")).

Definition fresh (d : string) : AEName :=
  mkAEName d UNKNOWN None None None (PyInt 0) (PyList []).

(** A name in status [s] whose preclaim, if any, was made at height [h]
    with salt 7. *)
Definition name (d : string) (s : NameStatus) (h : option Z) : AEName :=
  mkAEName d s h None (option_map (fun _ => 7) h) (PyInt 0) (PyList []).

Definition world (n : AEName) (h : Z) (rs : list (ext_exn + dict))
  : World Node :=
  mkWorld n (mkNode h rs) [] [].

End Sim.

(** * Properties *)

Lemma NameStatus_eqb_eq (a b : NameStatus) : NameStatus_eqb a b = true <-> a = b.
Proof. destruct a, b; simpl; split; congruence. Qed.

(** ** The codec *)

Lemma list_byte_of_string_inj (s1 s2 : string) :
  list_byte_of_string s1 = list_byte_of_string s2 -> s1 = s2.
Proof.
  intros E.
  rewrite <- (string_of_list_byte_of_string s1),
          <- (string_of_list_byte_of_string s2).
  now rewrite E.
Qed.

Lemma string_of_list_byte_inj (l1 l2 : list byte) :
  string_of_list_byte l1 = string_of_list_byte l2 -> l1 = l2.
Proof.
  intros E.
  rewrite <- (list_byte_of_string_of_list_byte l1),
          <- (list_byte_of_string_of_list_byte l2).
  now rewrite E.
Qed.

Lemma getitem_inl (d : dict) (key : string) (e : exn) :
  getitem d key = inl e -> e = KeyError key.
Proof.
  unfold getitem. destruct (dict_get key d); intros E; inversion E; reflexivity.
Qed.

Lemma encode_ascii_inr (s : string) (bs : list byte) :
  encode_ascii s = inr bs -> is_ascii s = true /\ bs = list_byte_of_string s.
Proof.
  unfold encode_ascii. destruct (is_ascii s); intros E; inversion E; auto.
Qed.

Section CodecFacts.
Context `{Externals}.

Lemma _encode_name_inr (d e : string) :
  _encode_name d = inr e ->
  is_ascii d = true /\ e = "nm$" ++ b58encode_check (list_byte_of_string d).
Proof.
  unfold _encode_name, rbind.
  destruct (encode_ascii d) as [x | bs] eqn:E; intros E'; inversion E'.
  apply encode_ascii_inr in E. destruct E as [Ha ->]. auto.
Qed.

Lemma _encode_name_ascii (d : string) :
  is_ascii d = true ->
  _encode_name d = inr ("nm$" ++ b58encode_check (list_byte_of_string d)).
Proof.
  intros Ha. unfold _encode_name, encode_ascii, rbind. now rewrite Ha.
Qed.

Lemma _encode_name_inl (d : string) (e : exn) :
  _encode_name d = inl e -> e = UnicodeEncodeError.
Proof.
  unfold _encode_name, encode_ascii, rbind.
  destruct (is_ascii d); intros E; inversion E; reflexivity.
Qed.

(** What [validate_pointer] computes: the negation of "address and name". *)
Lemma validate_pointer_eq (p : string) :
  validate_pointer p =
  inr (negb ((startswith p "ak$" || startswith p "ok$") &&
             (endswith p ".aet" || endswith p ".test"))).
Proof.
  unfold validate_pointer, validate_address, validate_name, rbind.
  destruct (startswith p "ak$" || startswith p "ok$");
    destruct (endswith p ".aet" || endswith p ".test"); reflexivity.
Qed.

(** C9: [_encode_name] is injective on valid domains, given that the
    checksummed base encoding is injective on byte strings: two distinct
    valid domains never encode to the same identifier, and on ASCII domains
    the encoding does produce two (distinct) identifiers. *)
Theorem encode_name_injective (d1 d2 : string) :
  (forall x y, b58encode_check x = b58encode_check y -> x = y) ->
  validate_name d1 false = inr true ->
  validate_name d2 false = inr true ->
  d1 <> d2 ->
  (forall e1 e2,
      _encode_name d1 = inr e1 -> _encode_name d2 = inr e2 -> e1 <> e2) /\
  (is_ascii d1 = true -> is_ascii d2 = true ->
   exists e1 e2,
     _encode_name d1 = inr e1 /\ _encode_name d2 = inr e2 /\ e1 <> e2).
Proof.
  intros Hinj _ _ Hneq.
  assert (Hdiff : forall e1 e2,
             _encode_name d1 = inr e1 -> _encode_name d2 = inr e2 -> e1 <> e2).
  { intros e1 e2 E1 E2 Heq.
    apply _encode_name_inr in E1. apply _encode_name_inr in E2.
    destruct E1 as [_ ->]. destruct E2 as [_ E2]. rewrite E2 in Heq.
    simpl in Heq. inversion Heq as [Hb].
    apply Hinj in Hb. apply list_byte_of_string_inj in Hb. contradiction. }
  split; [exact Hdiff |].
  intros A1 A2.
  exists ("nm$" ++ b58encode_check (list_byte_of_string d1)),
         ("nm$" ++ b58encode_check (list_byte_of_string d2)).
  pose proof (_encode_name_ascii d1 A1) as E1.
  pose proof (_encode_name_ascii d2 A2) as E2.
  split; [exact E1 |]. split; [exact E2 |]. exact (Hdiff _ _ E1 E2).
Qed.

End CodecFacts.

Lemma encode_name_injective_witness :
  (forall e1 e2,
      _encode_name "alice.test" = inr e1 -> _encode_name "bob.aet" = inr e2 ->
      e1 <> e2) /\
  (is_ascii "alice.test" = true -> is_ascii "bob.aet" = true ->
   exists e1 e2,
     _encode_name "alice.test" = inr e1 /\ _encode_name "bob.aet" = inr e2 /\
     e1 <> e2).
Proof.
  apply (@encode_name_injective Sim.externals "alice.test" "bob.aet").
  - exact string_of_list_byte_inj.
  - reflexivity.
  - reflexivity.
  - discriminate.
Defined.

(** C5: on a value that is neither an address nor a name
    [validate_pointer] answers true, and on a value that is both it answers
    false. *)
Theorem validate_pointer_negated :
  validate_address "foo" false = inr false /\
  validate_name "foo" false = inr false /\
  validate_pointer "foo" = inr true /\
  validate_address "ak$x.test" false = inr true /\
  validate_name "ak$x.test" false = inr true /\
  validate_pointer "ak$x.test" = inr false.
Proof. repeat split. Qed.

(** ** Running the methods *)

Ltac run :=
  cbv beta iota zeta delta
    [bind ret raise lift get modify try_except on_client on_keypair exec];
  cbn [self client calls entropy fst snd].

Ltac simpl_world := cbn [self client calls entropy fst snd] in *.

(** Case analysis on the innermost scrutinee of the goal. *)
Ltac split_step :=
  match goal with
  | |- context [match ?x with _ => _ end] =>
      lazymatch x with
      | context [match _ with _ => _ end] => fail
      | _ => destruct x eqn:?; simpl_world
      end
  end.

Ltac split_run := repeat split_step.

Lemma exn_of_ext_not_TooEarlyClaim (e : ext_exn) (msg : string) :
  exn_of_ext e <> TooEarlyClaim msg.
Proof. destruct e; discriminate. Qed.

Section Claim.
Context `{Externals} {G : Type} `{EpochClient G}.

Lemma claim_without_preclaim (kp : KeyPair) (fee : Z) (w : World G) :
  preclaimed_block_height (self w) = None ->
  claim kp fee w =
  (inl (MissingPreclaim "You must call preclaim before claiming a name"), w).
Proof. intros E. unfold claim. run. now rewrite E. Qed.

Lemma claim_too_early (kp : KeyPair) (fee : Z) (w : World G) (p h : Z) (g : G) :
  preclaimed_block_height (self w) = Some p ->
  get_height (client w) = (inr h, g) ->
  h <= p ->
  claim kp fee w =
  (inl (TooEarlyClaim too_early_msg),
   mkWorld (self w) g (calls w ++ [get_height_call]) (entropy w)).
Proof.
  intros Ep Eh Hle. unfold claim. run. rewrite Ep, Eh.
  destruct (p >=? h) eqn:Ege; [reflexivity |].
  rewrite Z.geb_leb, Z.leb_gt in Ege. lia.
Qed.

(** A [TooEarlyClaim] out of [claim] comes from the height check. *)
Lemma claim_TooEarlyClaim_inv (kp : KeyPair) (fee : Z) (w w' : World G)
    (msg : string) :
  claim kp fee w = (inl (TooEarlyClaim msg), w') ->
  exists p h g,
    preclaimed_block_height (self w) = Some p /\
    get_height (client w) = (inr h, g) /\
    h <= p /\
    w' = mkWorld (self w) g (calls w ++ [get_height_call]) (entropy w).
Proof.
  unfold claim. run.
  destruct (preclaimed_block_height (self w)) as [p |] eqn:Ep;
    [| intros E; discriminate].
  destruct (get_height (client w)) as [[e | h] g] eqn:Eh.
  { intros E. inversion E as [[E1 E2]].
    now apply exn_of_ext_not_TooEarlyClaim in E1. }
  destruct (p >=? h) eqn:Ege.
  { intros E. inversion E. exists p, h, g.
    rewrite Z.geb_leb, Z.leb_le in Ege. auto. }
  intros E. exfalso. revert E.
  split_run; intros E; inversion E;
    try match goal with
        | Hx : exn_of_ext _ = TooEarlyClaim _ |- _ =>
            now apply exn_of_ext_not_TooEarlyClaim in Hx
        end;
    try discriminate; try congruence.
  all: match goal with
       | Hx : _encode_name _ = inl _ |- _ =>
           apply _encode_name_inl in Hx; congruence
       | Hx : getitem _ _ = inl _ |- _ =>
           apply getitem_inl in Hx; congruence
       end.
Qed.

(** Past the height check, with every collaborator answering, [claim]
    builds, signs and submits the transaction and records CLAIMED. *)
Lemma claim_submits (kp : KeyPair) (fee : Z) (w : World G) (p h : Z)
    (g g2 g3 : G) (account stx signed sig : pyval) (name : string) (tx : dict) :
  preclaimed_block_height (self w) = Some p ->
  get_height (client w) = (inr h, g) ->
  p < h ->
  get_address kp = inr account ->
  _encode_name (domain (self w)) = inr name ->
  let json := [("account", account); ("name", PyStr name);
               ("name_salt", opt_int (preclaim_salt (self w)));
               ("fee", PyInt fee)] in
  external_http_post "/tx/name/claim" json g = (inr tx, g2) ->
  SignableTransaction tx = inr stx ->
  sign_transaction kp stx = inr (signed, sig) ->
  send_signed_transaction signed g2 = (inr tt, g3) ->
  claim kp fee w =
  (rbind (getitem tx "tx_hash")
     (fun tx_hash => inr (tx_hash, opt_int (preclaim_salt (self w)))),
   mkWorld (with_status CLAIMED (self w)) g3
     (calls w ++
      [get_height_call; get_address_call;
       external_http_post_call "/tx/name/claim" json;
       sign_transaction_call stx; send_signed_transaction_call signed])
     (entropy w)).
Proof.
  intros Ep Eh Hlt Ea En json Epost Estx Esign Esend.
  unfold claim. run. rewrite Ep, Eh.
  destruct (p >=? h) eqn:Ege.
  { rewrite Z.geb_leb, Z.leb_le in Ege. lia. }
  rewrite Ea. simpl_world. rewrite En. fold json. rewrite Epost.
  simpl_world. rewrite Estx, Esign. simpl_world. rewrite Esend.
  simpl_world. repeat rewrite <- app_assoc. simpl.
  unfold rbind. destruct (getitem tx "tx_hash"); reflexivity.
Qed.

(** C2: with [preclaimed_block_height] unset, [claim] raises
    [MissingPreclaim] whatever the status is, and the world is untouched: no
    collaborator call has been made. *)
Theorem claim_missing_preclaim (kp : KeyPair) (fee : Z) (w : World G) :
  preclaimed_block_height (self w) = None ->
  claim kp fee w =
  (inl (MissingPreclaim "You must call preclaim before claiming a name"), w)
  /\ calls (exec (claim kp fee) w) = calls w
  /\ client (exec (claim kp fee) w) = client w.
Proof.
  intros E. unfold exec. rewrite (claim_without_preclaim kp fee w E).
  auto.
Qed.

(** C1: with [preclaimed_block_height] set to [p] and the gateway
    reporting height [h], [claim] raises [TooEarlyClaim] exactly when [h] is
    not strictly greater than [p] (and then right after the height read);
    when [h] is at least [p + 1] and the collaborators answer, it builds,
    signs and submits the claim transaction and sets the status to CLAIMED. *)
Theorem claim_height_gate (kp : KeyPair) (fee : Z) (w : World G) (p h : Z)
    (g : G) :
  preclaimed_block_height (self w) = Some p ->
  get_height (client w) = (inr h, g) ->
  ((exists msg, fst (claim kp fee w) = inl (TooEarlyClaim msg)) <-> ~ p < h) /\
  (~ p < h ->
   claim kp fee w =
   (inl (TooEarlyClaim too_early_msg),
    mkWorld (self w) g (calls w ++ [get_height_call]) (entropy w))) /\
  (p + 1 <= h ->
   forall (g2 g3 : G) (account stx signed sig : pyval) (name : string)
          (tx : dict),
     get_address kp = inr account ->
     _encode_name (domain (self w)) = inr name ->
     let json := [("account", account); ("name", PyStr name);
                  ("name_salt", opt_int (preclaim_salt (self w)));
                  ("fee", PyInt fee)] in
     external_http_post "/tx/name/claim" json g = (inr tx, g2) ->
     SignableTransaction tx = inr stx ->
     sign_transaction kp stx = inr (signed, sig) ->
     send_signed_transaction signed g2 = (inr tt, g3) ->
     claim kp fee w =
     (rbind (getitem tx "tx_hash")
        (fun tx_hash => inr (tx_hash, opt_int (preclaim_salt (self w)))),
      mkWorld (with_status CLAIMED (self w)) g3
        (calls w ++
         [get_height_call; get_address_call;
          external_http_post_call "/tx/name/claim" json;
          sign_transaction_call stx; send_signed_transaction_call signed])
        (entropy w)) /\
     status (self (exec (claim kp fee) w)) = CLAIMED).
Proof.
  intros Ep Eh. split; [split |]; [| | split].
  - intros [msg E].
    destruct (claim kp fee w) as [r w'] eqn:Ec. simpl in E. subst r.
    apply claim_TooEarlyClaim_inv in Ec.
    destruct Ec as (p' & h' & g' & Ep' & Eh' & Hle & _).
    rewrite Ep in Ep'. rewrite Eh in Eh'.
    inversion Ep'. inversion Eh'. lia.
  - intros Hn. exists too_early_msg.
    rewrite (claim_too_early kp fee w p h g Ep Eh); [reflexivity | lia].
  - intros Hn. apply (claim_too_early kp fee w p h g Ep Eh). lia.
  - intros Hle g2 g3 account stx signed sig name tx Ea En json Epost Estx
           Esign Esend.
    assert (Hlt : p < h) by lia.
    pose proof (claim_submits kp fee w p h g g2 g3 account stx signed sig
                  name tx Ep Eh Hlt Ea En Epost Estx Esign Esend) as E.
    split; [exact E |]. unfold exec. fold json in E. rewrite E. reflexivity.
Qed.
End Claim.

Section Management.
Context `{Externals} {G : Type} `{EpochClient G}.

Lemma update_status_not_found (w : World G) (payload : pyval) (g : G) :
  let params := [("name", PyStr (domain (self w)))] in
  external_http_get "name" params (client w) = (inl (NotFound payload), g) ->
  update_status w =
  (inr tt,
   mkWorld (if NameStatus_eqb (status (self w)) UNKNOWN
            then with_status AVAILABLE (self w) else self w)
     g (calls w ++ [external_http_get_call "name" params]) (entropy w)).
Proof.
  intros params E. unfold update_status. run. fold params. rewrite E.
  simpl_world. cbn [exn_of_ext]. simpl_world.
  destruct (NameStatus_eqb (status (self w)) UNKNOWN); reflexivity.
Qed.

Lemma update_status_found (w : World G) (response : dict) (g : G) :
  let params := [("name", PyStr (domain (self w)))] in
  external_http_get "name" params (client w) = (inr response, g) ->
  update_status w =
  let log := (calls w ++ [external_http_get_call "name" params])%list in
  let claimed := with_status CLAIMED (self w) in
  match getitem response "name_ttl" with
  | inl e => (inl e, mkWorld claimed g log (entropy w))
  | inr ttl =>
      match rbind (getitem response "pointers") loads with
      | inl e => (inl e, mkWorld (with_name_ttl ttl claimed) g log (entropy w))
      | inr ps =>
          (inr tt,
           mkWorld (with_pointers ps (with_name_ttl ttl claimed)) g log
             (entropy w))
      end
  end.
Proof.
  intros params E. unfold update_status. run. fold params. rewrite E.
  simpl_world.
  destruct (getitem response "name_ttl") as [e | ttl] eqn:Ettl.
  { apply getitem_inl in Ettl. subst e. reflexivity. }
  unfold rbind.
  destruct (getitem response "pointers") as [e | p] eqn:Ep.
  { apply getitem_inl in Ep. subst e. reflexivity. }
  unfold loads. destruct p; try reflexivity.
  destruct (json_loads s); reflexivity.
Qed.

Lemma update_not_claimed (target : Target) (ttl fee : Z) (w : World G) :
  status (self w) <> CLAIMED ->
  update target ttl fee w =
  (inl (AssertionError "Must be claimed to update pointer"), w).
Proof.
  intros Hs. unfold update. run.
  destruct (NameStatus_eqb (status (self w)) CLAIMED) eqn:E; [| reflexivity].
  apply NameStatus_eqb_eq in E. contradiction.
Qed.

Lemma update_run (target : Target) (ttl fee : Z) (w : World G) (t nh : string)
    (response : dict) (g : G) :
  status (self w) = CLAIMED ->
  target_id target = Some t ->
  _encode_name (domain (self w)) = inr nh ->
  let json := [("name_hash", PyStr nh); ("name_ttl", name_ttl (self w));
               ("ttl", PyInt ttl);
               ("pointers", PyStr (json_dumps (PyDict (pointers_for t))));
               ("fee", PyInt fee)] in
  internal_http_post "name-update-tx" json (client w) = (inr response, g) ->
  let log := (calls w ++ [internal_http_post_call "name-update-tx" json])%list in
  update target ttl fee w =
  if dict_contains "name_hash" response then
    (inr tt,
     mkWorld (with_pointers (PyDict (pointers_for t)) (self w)) g log
       (entropy w))
  else (inl (UpdateError response), mkWorld (self w) g log (entropy w)).
Proof.
  intros Es Et En json Epost log. subst json log.
  unfold update, name_hash, pointers_for in *. run.
  rewrite Es. cbn [NameStatus_eqb].
  destruct target as [[oid] | t0]; cbn [target_id oracle_id] in *;
    [rewrite Et | inversion Et; subst t0].
  all: rewrite En; simpl_world.
  all: destruct (startswith t "ak"); rewrite Epost; simpl_world;
    destruct (dict_contains "name_hash" response); reflexivity.
Qed.

Lemma transfer_ownership_run (receipient_pubkey : string) (fee : Z)
    (w : World G) (nh : string) (response : dict) (g : G) :
  _encode_name (domain (self w)) = inr nh ->
  let json := [("name_hash", PyStr nh);
               ("recipient_pubkey", PyStr receipient_pubkey);
               ("fee", PyInt fee)] in
  internal_http_post "name-transfer-tx" json (client w) = (inr response, g) ->
  let log := (calls w ++ [internal_http_post_call "name-transfer-tx" json])%list in
  transfer_ownership receipient_pubkey fee w =
  if dict_contains "name_hash" response then
    (inr tt, mkWorld (with_status TRANSFERRED (self w)) g log (entropy w))
  else
    (inl (AENSException "transfer ownership failed" response),
     mkWorld (self w) g log (entropy w)).
Proof.
  intros En json Epost log. unfold transfer_ownership, name_hash. run.
  rewrite En. fold json. rewrite Epost. simpl_world.
  destruct (dict_contains "name_hash" response); reflexivity.
Qed.

Lemma revoke_run (fee : Z) (w : World G) (nh : string) (response : dict)
    (g : G) :
  _encode_name (domain (self w)) = inr nh ->
  let json := [("name_hash", PyStr nh); ("fee", PyInt fee)] in
  internal_http_post "name-revoke-tx" json (client w) = (inr response, g) ->
  let log := (calls w ++ [internal_http_post_call "name-revoke-tx" json])%list in
  revoke fee w =
  if dict_contains "name_hash" response then
    (inr tt, mkWorld (with_status REVOKED (self w)) g log (entropy w))
  else
    (inl (AENSException "Error revoking name" response),
     mkWorld (self w) g log (entropy w)).
Proof.
  intros En json Epost log. unfold revoke, name_hash. run.
  rewrite En. fold json. rewrite Epost. simpl_world.
  destruct (dict_contains "name_hash" response); reflexivity.
Qed.

(** C3: after a not-found answer to the lookup, [update_status] returns
    with the status AVAILABLE if it was UNKNOWN (nothing else changed) and
    with the object unchanged in every other status; after a successful
    lookup the status is CLAIMED, and when the response carries [name_ttl]
    and a [pointers] text that parses, [name_ttl] is the value of the
    response and [pointers] the parsed value, the other attributes being
    kept. *)
Theorem update_status_refresh (w : World G) :
  let params := [("name", PyStr (domain (self w)))] in
  let w' := exec update_status w in
  (forall payload g,
      external_http_get "name" params (client w) = (inl (NotFound payload), g) ->
      fst (update_status w) = inr tt /\
      (status (self w) = UNKNOWN ->
       status (self w') = AVAILABLE /\
       self w' =
       mkAEName (domain (self w)) AVAILABLE
         (preclaimed_block_height (self w))
         (preclaimed_commitment_hash (self w)) (preclaim_salt (self w))
         (name_ttl (self w)) (pointers (self w))) /\
      (status (self w) <> UNKNOWN ->
       status (self w') = status (self w) /\ self w' = self w)) /\
  (forall response g,
      external_http_get "name" params (client w) = (inr response, g) ->
      status (self w') = CLAIMED /\
      forall ttl text ps,
        dict_get "name_ttl" response = Some ttl ->
        dict_get "pointers" response = Some (PyStr text) ->
        json_loads text = Some ps ->
        fst (update_status w) = inr tt /\
        status (self w') = CLAIMED /\
        name_ttl (self w') = ttl /\
        pointers (self w') = ps /\
        self w' =
        mkAEName (domain (self w)) CLAIMED
          (preclaimed_block_height (self w))
          (preclaimed_commitment_hash (self w)) (preclaim_salt (self w))
          ttl ps).
Proof.
  intros params w'. subst w'. unfold exec. split.
  - intros payload g E.
    rewrite (update_status_not_found w payload g E). cbn [fst snd self].
    split; [reflexivity |]. split.
    + intros Es. rewrite Es. cbn [NameStatus_eqb]. split; reflexivity.
    + intros Es.
      destruct (NameStatus_eqb (status (self w)) UNKNOWN) eqn:Eb;
        [| split; reflexivity].
      apply NameStatus_eqb_eq in Eb. contradiction.
  - intros response g E.
    rewrite (update_status_found w response g E). cbv zeta. split.
    + destruct (getitem response "name_ttl");
        [| destruct (rbind (getitem response "pointers") loads)];
        reflexivity.
    + intros ttl text ps Ettl Ep Eps. unfold getitem, rbind, loads.
      rewrite Ettl, Ep, Eps. repeat split.
Qed.

(** C8: on a name that is not CLAIMED, [update] fails on its assertion
    and leaves the world as it was: the gateway has not been called and no
    request has been issued. *)
Theorem update_rejected_before_any_call (target : Target) (ttl fee : Z)
    (w : World G) :
  status (self w) <> CLAIMED ->
  update target ttl fee w =
  (inl (AssertionError "Must be claimed to update pointer"), w) /\
  calls (exec (update target ttl fee) w) = calls w /\
  client (exec (update target ttl fee) w) = client w.
Proof.
  intros Hs. unfold exec. rewrite (update_not_claimed target ttl fee w Hs).
  auto.
Qed.

(** C7: on a CLAIMED name, [revoke] whose response has no [name_hash]
    raises the exception carrying that response and leaves the status
    CLAIMED; with [name_hash] in the response the status becomes REVOKED. *)
Theorem revoke_echo (fee : Z) (w : World G) (nh : string) (response : dict)
    (g : G) :
  status (self w) = CLAIMED ->
  _encode_name (domain (self w)) = inr nh ->
  internal_http_post "name-revoke-tx"
    [("name_hash", PyStr nh); ("fee", PyInt fee)] (client w)
  = (inr response, g) ->
  (dict_contains "name_hash" response = false ->
   fst (revoke fee w) = inl (AENSException "Error revoking name" response) /\
   self (exec (revoke fee) w) = self w /\
   status (self (exec (revoke fee) w)) = CLAIMED) /\
  (dict_contains "name_hash" response = true ->
   fst (revoke fee w) = inr tt /\
   status (self (exec (revoke fee) w)) = REVOKED).
Proof.
  intros Es En Epost. unfold exec.
  rewrite (revoke_run fee w nh response g En Epost).
  split; intros Ec; rewrite Ec; cbn [fst snd self]; auto.
Qed.

(** What [update] can do to the object: nothing, or overwrite [pointers]
    after a response that has [name_hash]. *)
Lemma update_changes_only_on_echo (target : Target) (ttl fee : Z)
    (w : World G) :
  self (exec (update target ttl fee) w) = self w \/
  exists t json response g,
    internal_http_post "name-update-tx" json (client w) = (inr response, g) /\
    dict_contains "name_hash" response = true /\
    fst (update target ttl fee w) = inr tt /\
    self (exec (update target ttl fee) w) =
    with_pointers (PyDict (pointers_for t)) (self w).
Proof.
  unfold exec, update, name_hash, pointers_for. run.
  destruct (NameStatus_eqb (status (self w)) CLAIMED); [| now left].
  destruct target as [[[id |]] | id]; cbn [oracle_id]; try (now left).
  all: destruct (_encode_name (domain (self w))) as [e | nh];
    cbn [fst snd]; [now left |].
  all: destruct (startswith id "ak") eqn:Eak.
  all: match goal with
       | |- context [internal_http_post ?e ?j ?c] =>
           destruct (internal_http_post e j c) as [[x | response] g]
             eqn:Epost; simpl_world; [now left |];
           destruct (dict_contains "name_hash" response) eqn:Ec;
           simpl_world; [right | now left];
           exists id, j, response, g; rewrite Eak; auto
       end.
Qed.

(** C10: when the response to [update] has no [name_hash], [update]
    raises [UpdateError] carrying that response and the object (its pointers
    and status among the rest) is as before the call; and in any run, the
    pointers are overwritten only after a response that has [name_hash]. *)
Theorem update_without_echo (target : Target) (ttl fee : Z) (w : World G) :
  (forall t nh response g,
      status (self w) = CLAIMED ->
      target_id target = Some t ->
      _encode_name (domain (self w)) = inr nh ->
      internal_http_post "name-update-tx"
        [("name_hash", PyStr nh); ("name_ttl", name_ttl (self w));
         ("ttl", PyInt ttl);
         ("pointers", PyStr (json_dumps (PyDict (pointers_for t))));
         ("fee", PyInt fee)] (client w)
      = (inr response, g) ->
      dict_contains "name_hash" response = false ->
      fst (update target ttl fee w) = inl (UpdateError response) /\
      self (exec (update target ttl fee) w) = self w /\
      pointers (self (exec (update target ttl fee) w)) = pointers (self w) /\
      status (self (exec (update target ttl fee) w)) = status (self w)) /\
  (pointers (self (exec (update target ttl fee) w)) <> pointers (self w) ->
   exists json response g,
     internal_http_post "name-update-tx" json (client w) = (inr response, g) /\
     dict_contains "name_hash" response = true).
Proof.
  split.
  - intros t nh response g Es Et En Epost Ec. unfold exec.
    rewrite (update_run target ttl fee w t nh response g Es Et En Epost).
    rewrite Ec. cbn [fst snd self]. auto.
  - intros Hp.
    destruct (update_changes_only_on_echo target ttl fee w)
      as [E | (t & json & response & g & Epost & Ec & _)].
    + rewrite E in Hp. contradiction.
    + exists json, response, g. auto.
Qed.

End Management.

(** ** What a method can change *)

Section Respects.
Context `{Externals} {G : Type} `{EpochClient G}.
Variable R : AEName -> AEName -> Prop.
Hypothesis R_refl : forall n, R n n.
Hypothesis R_trans : forall a b c, R a b -> R b c -> R a c.

Lemma respects_ret {A : Type} (a : A) : respects R (@ret G A a).
Proof. intros w. apply R_refl. Qed.

Lemma respects_raise {A : Type} (e : exn) : respects R (@raise G A e).
Proof. intros w. apply R_refl. Qed.

Lemma respects_lift {A : Type} (r : result A) : respects R (@lift G A r).
Proof. intros w. apply R_refl. Qed.

Lemma respects_get {A : Type} (field : AEName -> A) :
  respects R (@get G A field).
Proof. intros w. apply R_refl. Qed.

Lemma respects_randint (lo hi : Z) : respects R (@randint G lo hi).
Proof.
  intros w. unfold exec, randint. destruct (entropy w); apply R_refl.
Qed.

Lemma respects_on_client {A : Type} (c : Call)
    (method : G -> (ext_exn + A) * G) :
  respects R (on_client c method).
Proof.
  intros w. unfold exec, on_client.
  destruct (method (client w)) as [[e | a] g]; apply R_refl.
Qed.

Lemma respects_on_keypair {A : Type} (c : Call) (r : ext_exn + A) :
  respects R (@on_keypair G A c r).
Proof. intros w. unfold exec, on_keypair. destruct r; apply R_refl. Qed.

Lemma respects_modify (f : AEName -> AEName) :
  (forall n, R n (f n)) -> respects R (@modify G f).
Proof. intros Hf w. apply Hf. Qed.

Lemma respects_bind {A B : Type} (m : M G A) (k : A -> M G B) :
  respects R m -> (forall a, respects R (k a)) -> respects R (bind m k).
Proof.
  intros Hm Hk w. specialize (Hm w). unfold exec, bind in *.
  destruct (m w) as [[e | a] w1]; cbn [snd] in *; [exact Hm |].
  eapply R_trans; [exact Hm | apply Hk].
Qed.

Lemma respects_try_except {A : Type} (body : M G A)
    (handler : exn -> option (M G A)) :
  respects R body ->
  (forall e, match handler e with
             | Some h => respects R h
             | None => True
             end) ->
  respects R (try_except body handler).
Proof.
  intros Hb Hh w. specialize (Hb w). unfold exec, try_except in *.
  destruct (body w) as [[e | a] w1]; cbn [snd] in *; [| exact Hb].
  specialize (Hh e). destruct (handler e) as [h |]; [| exact Hb].
  eapply R_trans; [exact Hb | apply Hh].
Qed.

Ltac respects_step :=
  first
    [ apply respects_ret | apply respects_raise | apply respects_lift
    | apply respects_get | apply respects_randint
    | apply respects_on_client | apply respects_on_keypair
    | apply respects_modify; solve [auto]
    | apply respects_bind; [| intros ?]
    | match goal with
      | |- respects _ (match ?x with _ => _ end) => destruct x
      end ].

(** What [R] has to allow for each assignment the methods make. *)
Hypothesis R_claimed : forall n, R n (with_status CLAIMED n).
Hypothesis R_preclaimed : forall n, R n (with_status PRECLAIMED n).
Hypothesis R_available :
  forall n, status n = UNKNOWN -> R n (with_status AVAILABLE n).
Hypothesis R_height : forall n h, R n (with_preclaimed_block_height h n).
Hypothesis R_salt : forall n s, R n (with_preclaim_salt s n).
Hypothesis R_ttl : forall n t, R n (with_name_ttl t n).
Hypothesis R_pointers : forall n p, R n (with_pointers p n).

Lemma respects_update_status : respects R update_status.
Proof.
  unfold update_status. apply respects_try_except.
  - repeat respects_step.
  - intros e. destruct e; try exact I.
    intros w. unfold exec, bind, get. cbn [fst snd].
    destruct (NameStatus_eqb (status (self w)) UNKNOWN) eqn:E.
    + apply NameStatus_eqb_eq in E. apply R_available. exact E.
    + apply R_refl.
Qed.

Lemma respects_is_available : respects R is_available.
Proof.
  unfold is_available. apply respects_bind; [apply respects_update_status |].
  intros _. repeat respects_step.
Qed.

Lemma respects_check_claimed : respects R check_claimed.
Proof.
  unfold check_claimed. apply respects_bind; [apply respects_update_status |].
  intros _. repeat respects_step.
Qed.

Lemma respects__get_commitment_hash (salt : Z) :
  respects R (_get_commitment_hash salt).
Proof.
  unfold _get_commitment_hash. repeat respects_step.
  apply respects_try_except; [respects_step |].
  intros e. destruct e; try exact I. respects_step.
Qed.

Lemma respects_preclaim (kp : KeyPair) (fee : Z) (salt : option Z) :
  respects R (preclaim kp fee salt).
Proof.
  unfold preclaim.
  repeat first [ apply respects__get_commitment_hash | respects_step ].
Qed.

Lemma respects_claim (kp : KeyPair) (fee : Z) : respects R (claim kp fee).
Proof. unfold claim. repeat respects_step. Qed.

Lemma respects_claim_blocking (kp : KeyPair) (fee : Z) :
  respects R (claim_blocking kp fee).
Proof.
  unfold claim_blocking. apply respects_try_except.
  - apply respects_bind; [apply respects_claim | intros ?; respects_step].
  - intros e. destruct e; try exact I.
    repeat first [ apply respects_claim | respects_step ].
Qed.

Lemma respects_full_claim_blocking (kp : KeyPair) (preclaim_fee claim_fee : Z) :
  respects R (full_claim_blocking kp preclaim_fee claim_fee).
Proof.
  unfold full_claim_blocking.
  repeat first [ apply respects_is_available | apply respects_preclaim
               | apply respects_claim_blocking | respects_step ].
Qed.

Lemma respects_update (target : Target) (ttl fee : Z) :
  respects R (update target ttl fee).
Proof. unfold update, name_hash. repeat respects_step. Qed.

Lemma respects_transfer_ownership (receipient_pubkey : string) (fee : Z) :
  (forall n, R n (with_status TRANSFERRED n)) ->
  respects R (transfer_ownership receipient_pubkey fee).
Proof. intros Ht. unfold transfer_ownership, name_hash. repeat respects_step. Qed.

Lemma respects_revoke (fee : Z) :
  (forall n, R n (with_status REVOKED n)) ->
  respects R (revoke fee).
Proof. intros Hr. unfold revoke, name_hash. repeat respects_step. Qed.

End Respects.

Ltac respects_op R :=
  first
    [ apply (respects_update_status R) | apply (respects_is_available R)
    | apply (respects_check_claimed R)
    | apply (respects_full_claim_blocking R) | apply (respects_preclaim R)
    | apply (respects_claim_blocking R) | apply (respects_claim R)
    | apply (respects_update R) | apply (respects_transfer_ownership R)
    | apply (respects_revoke R) ].

(** ** The blocking claim *)

Section ClaimBlocking.
Context `{Externals} {G : Type} `{EpochClient G}.

(** [claim] never waits for a block, and reads the height once when a
    preclaim height is recorded (and not at all otherwise). *)
Lemma claim_calls (kp : KeyPair) (fee : Z) (w : World G) :
  exists l,
    calls (exec (claim kp fee) w) = (calls w ++ l)%list /\
    count is_wait_for_next_block l = 0%nat /\
    count is_get_height l =
    match preclaimed_block_height (self w) with
    | Some _ => 1%nat
    | None => 0%nat
    end.
Proof.
  unfold exec, claim. run.
  destruct (preclaimed_block_height (self w)) as [p |];
    [| exists []; rewrite app_nil_r; auto].
  split_run;
    (eexists; split;
     [repeat rewrite <- app_assoc; reflexivity | split; reflexivity]).
Qed.

Lemma claim_keeps_preclaimed_block_height (kp : KeyPair) (fee : Z)
    (w : World G) :
  preclaimed_block_height (self (exec (claim kp fee) w)) =
  preclaimed_block_height (self w).
Proof.
  apply (respects_claim
           (fun n n' => preclaimed_block_height n' = preclaimed_block_height n));
    try reflexivity.
  intros a b c Hab Hbc. congruence.
Qed.

Lemma claim_blocking_eq (kp : KeyPair) (fee : Z) (w : World G) :
  claim_blocking kp fee w =
  match claim kp fee w with
  | (inr _, w1) => (inr tt, w1)
  | (inl (TooEarlyClaim _), w1) =>
      match wait_for_next_block (client w1) with
      | (inl e, g) =>
          (inl (exn_of_ext e),
           mkWorld (self w1) g (calls w1 ++ [wait_for_next_block_call])
             (entropy w1))
      | (inr _, g) =>
          match
            claim kp fee
              (mkWorld (self w1) g (calls w1 ++ [wait_for_next_block_call])
                 (entropy w1))
          with
          | (inr _, w2) => (inr tt, w2)
          | (inl e, w2) => (inl e, w2)
          end
      end
  | (inl e, w1) => (inl e, w1)
  end.
Proof.
  unfold claim_blocking. run.
  destruct (claim kp fee w) as [[e | a] w1]; [| reflexivity].
  destruct e; try reflexivity.
  destruct (wait_for_next_block (client w1)) as [[e | u] g]; [reflexivity |].
  simpl_world.
  match goal with
  | |- context [claim kp fee ?x] => destruct (claim kp fee x) as [[e | a] w2]
  end; reflexivity.
Qed.

(** C4: [claim_blocking] is [claim]; if that raises [TooEarlyClaim], and
    only then, it waits for the next block once and calls [claim] once more,
    whose outcome (a second [TooEarlyClaim] as any other) is final. In the
    log, the wait occurs once in that case and never otherwise, and the
    height is read at most twice. *)
Theorem claim_blocking_retries_once (kp : KeyPair) (fee : Z) (w : World G) :
  claim_blocking kp fee w =
  match claim kp fee w with
  | (inr _, w1) => (inr tt, w1)
  | (inl (TooEarlyClaim _), w1) =>
      match wait_for_next_block (client w1) with
      | (inl e, g) =>
          (inl (exn_of_ext e),
           mkWorld (self w1) g (calls w1 ++ [wait_for_next_block_call])
             (entropy w1))
      | (inr _, g) =>
          match
            claim kp fee
              (mkWorld (self w1) g (calls w1 ++ [wait_for_next_block_call])
                 (entropy w1))
          with
          | (inr _, w2) => (inr tt, w2)
          | (inl e, w2) => (inl e, w2)
          end
      end
  | (inl e, w1) => (inl e, w1)
  end /\
  exists l,
    calls (exec (claim_blocking kp fee) w) = (calls w ++ l)%list /\
    (count is_wait_for_next_block l <= 1)%nat /\
    (count is_get_height l <= 2)%nat /\
    (count is_wait_for_next_block l = 1%nat <->
     exists msg, fst (claim kp fee w) = inl (TooEarlyClaim msg)) /\
    (count is_get_height l = 2%nat ->
     (exists msg, fst (claim kp fee w) = inl (TooEarlyClaim msg)) /\
     exists g, wait_for_next_block (client (exec (claim kp fee) w))
               = (inr tt, g)).
Proof.
  split; [apply claim_blocking_eq |].
  unfold exec. rewrite claim_blocking_eq.
  destruct (claim_calls kp fee w) as (l1 & El1 & Wl1 & Hl1).
  assert (Hl1' : (count is_get_height l1 <= 1)%nat).
  { rewrite Hl1. destruct (preclaimed_block_height (self w)); lia. }
  unfold exec in El1.
  destruct (claim kp fee w) as [[e | a] w1] eqn:Ec; cbn [fst snd] in *.
  2:{ exists l1. repeat split; intros; try lia; try assumption;
      match goal with
      | Hx : exists _, _ |- _ => destruct Hx; discriminate
      end. }
  assert (Hother :
    (forall msg, e <> TooEarlyClaim msg) ->
    exists l,
      calls w1 = (calls w ++ l)%list /\
      (count is_wait_for_next_block l <= 1)%nat /\
      (count is_get_height l <= 2)%nat /\
      (count is_wait_for_next_block l = 1%nat <->
       exists msg, @inl exn (pyval * pyval) e = inl (TooEarlyClaim msg)) /\
      (count is_get_height l = 2%nat ->
       (exists msg, @inl exn (pyval * pyval) e = inl (TooEarlyClaim msg)) /\
       exists g, wait_for_next_block (client w1) = (inr tt, g))).
  { intros Hne. exists l1. repeat split; intros; try lia; try assumption.
    match goal with
    | Hx : exists _, _ |- _ => destruct Hx as [msg Hx]; inversion Hx
    end.
    exfalso. eapply Hne. eassumption. }
  destruct e; cbn [fst snd]; try (apply Hother; intros; discriminate).
  clear Hother.
  destruct (wait_for_next_block (client w1)) as [[e | u] g] eqn:Ew.
  { cbn [snd calls]. exists (l1 ++ [wait_for_next_block_call])%list.
    rewrite El1, <- app_assoc. unfold count in *.
    rewrite !filter_app, !length_app, Wl1. cbn.
    repeat split; intros; try lia; eauto. }
  match goal with
  | |- context [claim kp fee ?x] =>
      destruct (claim_calls kp fee x) as (l2 & El2 & Wl2 & Hl2);
      unfold exec in El2; destruct (claim kp fee x) as [[e | a] w2]
  end; cbn [fst snd calls self] in *.
  all: exists (l1 ++ [wait_for_next_block_call] ++ l2)%list.
  all: rewrite El2, El1, <- !app_assoc.
  all: assert (Hl2' : (count is_get_height l2 <= 1)%nat)
    by (rewrite Hl2; destruct (preclaimed_block_height (self w1)); lia).
  all: unfold count in *;
    rewrite !filter_app, !length_app, Wl1, Wl2; cbn.
  all: destruct u; repeat split; intros; try lia; eauto.
Qed.

End ClaimBlocking.

(** ** The status machine *)

Lemma local_step_refl (s : NameStatus) : local_step s s = true.
Proof. destruct s; reflexivity. Qed.

Lemma local_step_trans (a b c : NameStatus) :
  local_step a b = true -> local_step b c = true -> local_step a c = true.
Proof. destruct a, b, c; cbn; congruence. Qed.

Section StatusMachine.
Context `{Externals} {G : Type} `{EpochClient G}.

Ltac local_facts :=
  unfold status_step; cbn [status with_status
    with_preclaimed_block_height with_preclaim_salt with_name_ttl
    with_pointers];
  intros;
  try match goal with
      | Hx : status _ = UNKNOWN |- _ => rewrite Hx
      end;
  auto using local_step_refl;
  try (eapply local_step_trans; eassumption);
  try match goal with
      | |- local_step ?s _ = true => destruct s; reflexivity
      end.

(** Every method but [transfer_ownership] and [revoke] moves the status
    along [local_step]. *)
Lemma run_op_local_step (o : Op) (w : World G) :
  is_transfer_ownership o = false ->
  is_revoke o = false ->
  status_step (self w) (self (run_op o w)).
Proof.
  intros Ht Hr.
  assert (Htrans : forall a b c : AEName,
             status_step a b -> status_step b c -> status_step a c).
  { unfold status_step. intros a b c. apply local_step_trans. }
  destruct o; try discriminate; cbn [run_op].
  - apply (respects_update_status status_step); local_facts.
  - apply (respects_is_available status_step); local_facts.
  - apply (respects_check_claimed status_step); local_facts.
  - apply (respects_full_claim_blocking status_step); local_facts.
  - apply (respects_preclaim status_step); local_facts.
  - apply (respects_claim_blocking status_step); local_facts.
  - apply (respects_claim status_step); local_facts.
  - apply (respects_update status_step); local_facts.
Qed.

Lemma transfer_ownership_step (receipient_pubkey : string) (fee : Z)
    (w : World G) :
  status (self (exec (transfer_ownership receipient_pubkey fee) w))
  = status (self w) \/
  status (self (exec (transfer_ownership receipient_pubkey fee) w))
  = TRANSFERRED.
Proof.
  apply (respects_transfer_ownership
           (fun n n' => status n' = status n \/ status n' = TRANSFERRED));
    cbn [status with_status]; auto.
  intros a b c [Hab | Hb] [Hbc | Hc]; auto;
    first [left; congruence | right; congruence].
Qed.

Lemma revoke_step (fee : Z) (w : World G) :
  status (self (exec (revoke fee) w)) = status (self w) \/
  status (self (exec (revoke fee) w)) = REVOKED.
Proof.
  apply (respects_revoke
           (fun n n' => status n' = status n \/ status n' = REVOKED));
    cbn [status with_status]; auto.
  intros a b c [Hab | Hb] [Hbc | Hc]; auto;
    first [left; congruence | right; congruence].
Qed.

(** One call: where a status can come from. *)
Lemma run_op_status (o : Op) (w : World G) :
  let s := status (self w) in
  let s' := status (self (run_op o w)) in
  (s' = TRANSFERRED -> s = TRANSFERRED \/ is_transfer_ownership o = true) /\
  (s' = REVOKED -> s = REVOKED \/ is_revoke o = true) /\
  (s' = UNKNOWN -> s = UNKNOWN) /\
  (s' = AVAILABLE -> s = AVAILABLE \/ s = UNKNOWN).
Proof.
  intros s s'.
  destruct (is_transfer_ownership o) eqn:Ht.
  { destruct o; try discriminate. cbn [run_op] in s'.
    destruct (transfer_ownership_step receipient_pubkey fee w) as [E | E];
      fold s s' in E; rewrite E; repeat split; intros; auto; discriminate. }
  destruct (is_revoke o) eqn:Hr.
  { destruct o; try discriminate. cbn [run_op] in s'.
    destruct (revoke_step fee w) as [E | E];
      fold s s' in E; rewrite E; repeat split; intros; auto; discriminate. }
  pose proof (run_op_local_step o w Ht Hr) as Hs.
  unfold status_step in Hs. fold s s' in Hs.
  destruct s, s'; cbn in Hs; try discriminate;
    repeat split; intros; auto; discriminate.
Qed.

(** A sequence of calls: TRANSFERRED and REVOKED only appear through the
    call that stands for them. *)
Lemma run_ops_transferred (os : list Op) (w : World G) :
  status (self (run_ops os w)) = TRANSFERRED ->
  status (self w) = TRANSFERRED \/ existsb is_transfer_ownership os = true.
Proof.
  revert w. induction os as [| o os IH]; intros w E; cbn [run_ops] in E.
  - now left.
  - cbn [existsb]. destruct (IH _ E) as [E1 | E1].
    + destruct (run_op_status o w) as (Ht & _).
      destruct (Ht E1) as [E0 | E0]; [now left | right; now rewrite E0].
    + right. rewrite E1. apply orb_true_r.
Qed.

Lemma run_ops_revoked (os : list Op) (w : World G) :
  status (self (run_ops os w)) = REVOKED ->
  status (self w) = REVOKED \/ existsb is_revoke os = true.
Proof.
  revert w. induction os as [| o os IH]; intros w E; cbn [run_ops] in E.
  - now left.
  - cbn [existsb]. destruct (IH _ E) as [E1 | E1].
    + destruct (run_op_status o w) as (_ & Hr & _).
      destruct (Hr E1) as [E0 | E0]; [now left | right; now rewrite E0].
    + right. rewrite E1. apply orb_true_r.
Qed.

(** A status appears only through a call that assigns it. *)
Lemma run_op_sets_status (o : Op) (t : NameStatus) (w : World G) :
  status (self (run_op o w)) = t ->
  status (self w) = t \/ sets_status o t = true.
Proof.
  destruct (sets_status o t) eqn:Hs; [now right | intros E; left].
  revert E.
  set (R := fun n n' : AEName => status n' = t -> status n = t).
  change (R (self w) (self (run_op o w))).
  destruct o, t; cbn in Hs; try discriminate Hs; cbn [run_op];
    respects_op R; unfold R; cbn [status with_status
      with_preclaimed_block_height with_preclaim_salt with_name_ttl
      with_pointers]; intros; auto; discriminate.
Qed.

(** [is_available] answers whether the status it leaves is AVAILABLE. *)
Lemma is_available_answer (w w1 : World G) (b : bool) :
  is_available w = (inr b, w1) ->
  b = NameStatus_eqb (status (self w1)) AVAILABLE.
Proof.
  unfold is_available. run.
  destruct (update_status w) as [[e | u] w0]; intros E; inversion E.
  reflexivity.
Qed.

(** On a CLAIMED name only [preclaim], [transfer_ownership] and [revoke]
    change the status. *)
Lemma run_op_keeps_claimed (o : Op) (w : World G) :
  keeps_claimed o = true ->
  status (self w) = CLAIMED ->
  status (self (run_op o w)) = CLAIMED.
Proof.
  intros Ho.
  set (R := fun n n' : AEName => status n = CLAIMED -> status n' = CLAIMED).
  assert (Hrefl : forall n, R n n) by (unfold R; auto).
  assert (Htrans : forall a b c, R a b -> R b c -> R a c)
    by (unfold R; auto).
  assert (Hav : respects R is_available).
  { apply (respects_is_available R); unfold R; cbn; intros; auto;
      congruence. }
  change (R (self w) (self (run_op o w))).
  destruct o; try discriminate Ho; cbn [run_op].
  - apply (respects_update_status R); unfold R; cbn; intros; auto;
      congruence.
  - exact (Hav w).
  - apply (respects_check_claimed R); unfold R; cbn; intros; auto;
      congruence.
  - intros Es. specialize (Hav w Es).
    unfold exec, full_claim_blocking in *. run.
    destruct (is_available w) as [[e | b] w1] eqn:Ea; cbn [snd] in *;
      [exact Hav |].
    apply is_available_answer in Ea. rewrite Hav in Ea. subst b.
    exact Hav.
  - apply (respects_claim_blocking R); unfold R; cbn; intros; auto.
  - apply (respects_claim R); unfold R; cbn; intros; auto.
  - apply (respects_update R); unfold R; cbn; intros; auto.
Qed.

Lemma run_ops_keeps_claimed (os : list Op) (w : World G) :
  forallb keeps_claimed os = true ->
  status (self w) = CLAIMED ->
  status (self (run_ops os w)) = CLAIMED.
Proof.
  revert w. induction os as [| o os IH]; intros w Hos Es; cbn [run_ops];
    [exact Es |].
  cbn [forallb] in Hos. apply andb_true_iff in Hos. destruct Hos as [Ho Hos].
  apply IH; [exact Hos |]. now apply run_op_keeps_claimed.
Qed.

(** C6 (amended): a status appears only through a call that assigns it:
    TRANSFERRED only through [transfer_ownership], REVOKED only through
    [revoke], PRECLAIMED only through [preclaim] (alone or inside
    [full_claim_blocking]), CLAIMED only through a lookup or a claim,
    AVAILABLE only through a lookup and from UNKNOWN only, UNKNOWN never; for
    TRANSFERRED and REVOKED also over any sequence of calls. Once CLAIMED,
    [preclaim], [transfer_ownership] and [revoke] are the only calls that
    change the status, in one call and over any sequence of calls; from
    CLAIMED, [transfer_ownership] and [revoke] whose response has [name_hash]
    set TRANSFERRED and REVOKED. *)
Theorem status_machine (o : Op) (os : list Op) (w : World G) :
  (let s := status (self w) in
   let s' := status (self (run_op o w)) in
   (s' = TRANSFERRED -> s = TRANSFERRED \/ is_transfer_ownership o = true) /\
   (s' = REVOKED -> s = REVOKED \/ is_revoke o = true) /\
   (s' = UNKNOWN -> s = UNKNOWN) /\
   (s' = AVAILABLE -> s = AVAILABLE \/ s = UNKNOWN)) /\
  (status (self (run_ops os w)) = TRANSFERRED ->
   status (self w) = TRANSFERRED \/
   existsb is_transfer_ownership os = true) /\
  (status (self (run_ops os w)) = REVOKED ->
   status (self w) = REVOKED \/ existsb is_revoke os = true) /\
  (forall receipient_pubkey fee nh response g,
      status (self w) = CLAIMED ->
      _encode_name (domain (self w)) = inr nh ->
      internal_http_post "name-transfer-tx"
        [("name_hash", PyStr nh);
         ("recipient_pubkey", PyStr receipient_pubkey);
         ("fee", PyInt fee)] (client w)
      = (inr response, g) ->
      dict_contains "name_hash" response = true ->
      status (self (run_op (transfer_ownership_op receipient_pubkey fee) w))
      = TRANSFERRED) /\
  (forall fee nh response g,
      status (self w) = CLAIMED ->
      _encode_name (domain (self w)) = inr nh ->
      internal_http_post "name-revoke-tx"
        [("name_hash", PyStr nh); ("fee", PyInt fee)] (client w)
      = (inr response, g) ->
      dict_contains "name_hash" response = true ->
      status (self (run_op (revoke_op fee) w)) = REVOKED) /\
  (forall t,
      status (self (run_op o w)) = t ->
      status (self w) = t \/ sets_status o t = true) /\
  (status (self w) = CLAIMED ->
   is_preclaim o = false ->
   is_transfer_ownership o = false ->
   is_revoke o = false ->
   status (self (run_op o w)) = CLAIMED) /\
  (status (self w) = CLAIMED ->
   forallb keeps_claimed os = true ->
   status (self (run_ops os w)) = CLAIMED).
Proof.
  split; [apply run_op_status |].
  split; [apply run_ops_transferred |].
  split; [apply run_ops_revoked |].
  split; [| split; [| split; [| split]]].
  - intros r fee nh response g _ En Epost Ec. cbn [run_op]. unfold exec.
    rewrite (transfer_ownership_run r fee w nh response g En Epost), Ec.
    reflexivity.
  - intros fee nh response g _ En Epost Ec. cbn [run_op]. unfold exec.
    rewrite (revoke_run fee w nh response g En Epost), Ec.
    reflexivity.
  - intros t. apply run_op_sets_status.
  - intros Es Hp Ht Hr. apply run_op_keeps_claimed; [| exact Es].
    unfold keeps_claimed. now rewrite Hp, Ht, Hr.
  - intros Es Hos. now apply run_ops_keeps_claimed.
Qed.

(** Without a [preclaim] (alone or inside [full_claim_blocking]), the
    preclaim height stays unset. *)
Lemma run_op_keeps_preclaim_unset (o : Op) (w : World G) :
  match o with
  | preclaim_op _ _ _ | full_claim_blocking_op _ _ _ => False
  | _ => True
  end ->
  preclaimed_block_height (self w) = None ->
  preclaimed_block_height (self (run_op o w)) = None.
Proof.
  set (R := fun n n' : AEName =>
              preclaimed_block_height n = None ->
              preclaimed_block_height n' = None).
  assert (Hrefl : forall n, R n n) by (unfold R; auto).
  assert (Htrans : forall a b c, R a b -> R b c -> R a c)
    by (unfold R; auto).
  intros Ho. change (R (self w) (self (run_op o w))).
  destruct o; try contradiction; cbn [run_op].
  - apply (respects_update_status R); unfold R; auto.
  - apply (respects_is_available R); unfold R; auto.
  - apply (respects_check_claimed R); unfold R; auto.
  - apply (respects_claim_blocking R); unfold R; auto.
  - apply (respects_claim R); unfold R; auto.
  - apply (respects_update R); unfold R; auto.
  - apply (respects_transfer_ownership R); unfold R; auto.
  - apply (respects_revoke R); unfold R; auto.
Qed.

End StatusMachine.

(** ** Concrete runs on the simulated node *)

Lemma claim_height_gate_witness :
  let n := Sim.name "alice.test" PRECLAIMED (Some 100) in
  (fst (claim Sim.keypair 1 (Sim.world n 100 [inr receipt]))
   = inl (TooEarlyClaim too_early_msg)) /\
  (fst (claim Sim.keypair 1 (Sim.world n 101 [inr receipt]))
   = inr (PyStr "th$1", PyInt 7) /\
   status (self (exec (claim Sim.keypair 1) (Sim.world n 101 [inr receipt])))
   = CLAIMED).
Proof.
  intros n. split.
  - pose proof (claim_height_gate Sim.keypair 1
                  (Sim.world n 100 [inr receipt]) 100 100
                  (Sim.mkNode 100 [inr receipt])) as Hgate.
    destruct (Hgate eq_refl eq_refl) as (_ & Hearly & _).
    rewrite Hearly; [reflexivity | lia].
  - pose proof (claim_height_gate Sim.keypair 1
                  (Sim.world n 101 [inr receipt]) 100 101
                  (Sim.mkNode 101 [inr receipt])) as Hgate.
    destruct (Hgate eq_refl eq_refl) as (_ & _ & Hsubmit).
    assert (Hle : 100 + 1 <= 101) by lia.
    destruct (Hsubmit Hle (Sim.mkNode 101 []) (Sim.mkNode 101 [])
                (PyStr "ak$alice") (PyDict receipt)
                (PyList [PyDict receipt; PyStr "sg$alice"]) (PyStr "sg$alice")
                "nm$alice.test" receipt
                eq_refl eq_refl eq_refl eq_refl eq_refl eq_refl)
      as [E Es].
    split; [rewrite E; reflexivity | exact Es].
Defined.

Lemma claim_missing_preclaim_witness :
  let w := Sim.world (Sim.name "alice.test" AVAILABLE None) 100 [inr receipt] in
  claim Sim.keypair 1 w =
  (inl (MissingPreclaim "You must call preclaim before claiming a name"), w)
  /\ calls (exec (claim Sim.keypair 1) w) = calls w
  /\ client (exec (claim Sim.keypair 1) w) = client w.
Proof.
  intros w. apply (claim_missing_preclaim Sim.keypair 1 w). reflexivity.
Defined.

Lemma update_status_refresh_witness :
  (let w := Sim.world (Sim.name "alice.test" PRECLAIMED (Some 100)) 100
              [inl (NotFound PyNone)] in
   status (self (exec update_status w)) = PRECLAIMED /\
   self (exec update_status w) = self w) /\
  (let w := Sim.world (Sim.fresh "alice.test") 100 [inl (NotFound PyNone)] in
   status (self (exec update_status w)) = AVAILABLE) /\
  (let w := Sim.world (Sim.fresh "alice.test") 100
              [inr [("name_ttl", PyInt 500); ("pointers", PyStr "{}")]] in
   status (self (exec update_status w)) = CLAIMED /\
   name_ttl (self (exec update_status w)) = PyInt 500 /\
   pointers (self (exec update_status w)) = PyDict []).
Proof.
  split; [| split].
  - intros w. destruct (update_status_refresh w) as [Hnf _].
    destruct (Hnf PyNone (Sim.mkNode 100 []) eq_refl) as (_ & _ & Hkeep).
    apply Hkeep. discriminate.
  - intros w. destruct (update_status_refresh w) as [Hnf _].
    destruct (Hnf PyNone (Sim.mkNode 100 []) eq_refl) as (_ & Hav & _).
    exact (proj1 (Hav eq_refl)).
  - intros w. destruct (update_status_refresh w) as [_ Hfound].
    destruct (Hfound [("name_ttl", PyInt 500); ("pointers", PyStr "{}")]
                (Sim.mkNode 100 []) eq_refl) as [_ Hfields].
    destruct (Hfields (PyInt 500) "{}" (PyDict [])
                eq_refl eq_refl eq_refl) as (_ & Hs & Httl & Hp & _).
    split; [exact Hs |]. split; [exact Httl | exact Hp].
Defined.

Lemma claim_blocking_retries_once_witness :
  let w := Sim.world (Sim.name "alice.test" PRECLAIMED (Some 100)) 100
             [inr receipt] in
  fst (claim_blocking Sim.keypair 1 w) = inr tt /\
  status (self (exec (claim_blocking Sim.keypair 1) w)) = CLAIMED /\
  count is_wait_for_next_block (calls (exec (claim_blocking Sim.keypair 1) w))
  = 1%nat /\
  count is_get_height (calls (exec (claim_blocking Sim.keypair 1) w)) = 2%nat.
Proof.
  intros w. unfold exec.
  destruct (claim_blocking_retries_once Sim.keypair 1 w) as [E _].
  rewrite E. repeat split.
Defined.

Lemma revoke_echo_witness :
  (let w := Sim.world (Sim.name "alice.test" CLAIMED (Some 100)) 105
              [inr rejection] in
   fst (revoke 1 w) = inl (AENSException "Error revoking name" rejection) /\
   status (self (exec (revoke 1) w)) = CLAIMED) /\
  (let w := Sim.world (Sim.name "alice.test" CLAIMED (Some 100)) 105
              [inr echo] in
   fst (revoke 1 w) = inr tt /\
   status (self (exec (revoke 1) w)) = REVOKED).
Proof.
  split; intros w.
  - pose proof (revoke_echo 1 w "nm$alice.test" rejection (Sim.mkNode 105 []))
      as Hrevoke.
    destruct (Hrevoke eq_refl eq_refl eq_refl) as [Hno _].
    destruct (Hno eq_refl) as (E & _ & Es). split; assumption.
  - pose proof (revoke_echo 1 w "nm$alice.test" echo (Sim.mkNode 105 []))
      as Hrevoke.
    destruct (Hrevoke eq_refl eq_refl eq_refl) as [_ Hyes].
    exact (Hyes eq_refl).
Defined.

Lemma update_rejected_before_any_call_witness :
  let w := Sim.world (Sim.name "alice.test" PRECLAIMED (Some 100)) 105
             [inr echo] in
  update (StrTarget "ak$bob") 50 1 w =
  (inl (AssertionError "Must be claimed to update pointer"), w) /\
  calls (exec (update (StrTarget "ak$bob") 50 1) w) = calls w /\
  client (exec (update (StrTarget "ak$bob") 50 1) w) = client w.
Proof.
  intros w. apply (update_rejected_before_any_call (StrTarget "ak$bob") 50 1 w).
  discriminate.
Defined.

Lemma update_without_echo_witness :
  let w := Sim.world (Sim.name "alice.test" CLAIMED (Some 100)) 105
             [inr rejection] in
  fst (update (StrTarget "ak$bob") 50 1 w) = inl (UpdateError rejection) /\
  pointers (self (exec (update (StrTarget "ak$bob") 50 1) w)) = PyList [] /\
  status (self (exec (update (StrTarget "ak$bob") 50 1) w)) = CLAIMED.
Proof.
  intros w.
  destruct (update_without_echo (StrTarget "ak$bob") 50 1 w) as [Hno _].
  destruct (Hno "ak$bob" "nm$alice.test" rejection (Sim.mkNode 105 [])
              eq_refl eq_refl eq_refl eq_refl eq_refl)
    as (E & _ & Ep & Es).
  split; [exact E |]. split; [rewrite Ep | rewrite Es]; reflexivity.
Defined.

Lemma status_machine_witness :
  let w := Sim.world (Sim.name "alice.test" CLAIMED (Some 100)) 105
             [inr echo] in
  let ops := [update_status_op; update_op (StrTarget "ak$bob") 50 1;
              claim_blocking_op Sim.keypair 1;
              full_claim_blocking_op Sim.keypair 1 1] in
  status (self (run_op (transfer_ownership_op "ak$bob" 1) w)) = TRANSFERRED /\
  status (self (run_op (revoke_op 1) w)) = REVOKED /\
  (status (self w) = REVOKED \/
   existsb is_revoke [update_status_op; revoke_op 1] = true) /\
  status (self (run_op (update_op (StrTarget "ak$bob") 50 1) w)) = CLAIMED /\
  status (self (run_ops ops
                  (Sim.world (Sim.name "alice.test" CLAIMED (Some 100)) 105
                     [inl (NotFound PyNone); inr echo; inr receipt;
                      inl (NotFound PyNone)])))
  = CLAIMED /\
  (status (self w) = REVOKED \/ sets_status (revoke_op 1) REVOKED = true).
Proof.
  intros w ops.
  destruct (status_machine (revoke_op 1) [update_status_op; revoke_op 1]
              (Sim.world (Sim.name "alice.test" CLAIMED (Some 100)) 105
                 [inl (NotFound PyNone); inr echo]))
    as (_ & _ & Hseq & _).
  destruct (status_machine (revoke_op 1) [] w)
    as (_ & _ & _ & Ht & Hr & Horigin & _).
  destruct (status_machine (update_op (StrTarget "ak$bob") 50 1) [] w)
    as (_ & _ & _ & _ & _ & _ & Hkeep & _).
  destruct (status_machine (revoke_op 1) ops
              (Sim.world (Sim.name "alice.test" CLAIMED (Some 100)) 105
                 [inl (NotFound PyNone); inr echo; inr receipt;
                  inl (NotFound PyNone)]))
    as (_ & _ & _ & _ & _ & _ & _ & Hkeeps).
  split; [| split; [| split; [| split; [| split]]]].
  - exact (Ht "ak$bob" 1 "nm$alice.test" echo (Sim.mkNode 105 [])
             eq_refl eq_refl eq_refl eq_refl).
  - exact (Hr 1 "nm$alice.test" echo (Sim.mkNode 105 [])
             eq_refl eq_refl eq_refl eq_refl).
  - exact (Hseq eq_refl).
  - exact (Hkeep eq_refl eq_refl eq_refl eq_refl).
  - exact (Hkeeps eq_refl eq_refl).
  - exact (Horigin REVOKED eq_refl).
Defined.

(** C6, as stated, fails: [transfer_ownership] and [revoke] set their
    status on a name that is not CLAIMED, [preclaim] changes a CLAIMED name,
    and a successful lookup makes a REVOKED name CLAIMED again. *)
Lemma status_machine_counterexample :
  status (self (run_op (transfer_ownership_op "ak$bob" 1)
                  (Sim.world (Sim.fresh "alice.test") 100 [inr echo])))
  = TRANSFERRED /\
  status (self (run_op (revoke_op 1)
                  (Sim.world (Sim.name "alice.test" PRECLAIMED (Some 100)) 100
                     [inr echo])))
  = REVOKED /\
  status (self (run_op (preclaim_op Sim.keypair 1 (Some 7))
                  (Sim.world (Sim.name "alice.test" CLAIMED (Some 100)) 105
                     [inr [("commitment", PyStr "cm$1")]; inr receipt])))
  = PRECLAIMED /\
  status (self (run_op update_status_op
                  (Sim.world (Sim.name "alice.test" REVOKED (Some 100)) 105
                     [inr [("name_ttl", PyInt 500);
                           ("pointers", PyStr "[]")]])))
  = CLAIMED.
Proof. repeat split. Qed.

(** A [preclaim] that fails after its height read leaves the height
    recorded, and a later [claim] goes through on it. *)
Example claim_after_failed_preclaim :
  let w := Sim.world (Sim.fresh "alice.test") 100 [inr rejection] in
  let w' := exec (preclaim Sim.keypair 1 (Some 7)) w in
  fst (preclaim Sim.keypair 1 (Some 7) w) = inl (PreclaimFailed rejection) /\
  status (self w') = UNKNOWN /\
  preclaimed_block_height (self w') = Some 100 /\
  fst (claim Sim.keypair 1 (Sim.world (self w') 101 [inr receipt]))
  = inr (PyStr "th$1", PyInt 7).
Proof. repeat split. Qed.

(** The scenario of the specification: [alice.test], available, preclaimed
    at height 100; [claim] at 100 is too early, at 101 it succeeds. *)
Example alice_scenario :
  let w0 := Sim.world (Sim.fresh "alice.test") 100
              [inl (NotFound PyNone); inr [("commitment", PyStr "cm$1")];
               inr receipt; inr receipt] in
  let w1 := run_ops [is_available_op; preclaim_op Sim.keypair 1 (Some 7)] w0 in
  status (self w1) = PRECLAIMED /\
  preclaimed_block_height (self w1) = Some 100 /\
  fst (claim Sim.keypair 1 w1) = inl (TooEarlyClaim too_early_msg) /\
  status (self (run_ops [claim_blocking_op Sim.keypair 1] w1)) = CLAIMED.
Proof. repeat split. Qed.

(** * Further properties of the module *)

(** ** Prefixes and suffixes *)

Lemma length_append (a b : string) :
  String.length (a ++ b) = (String.length a + String.length b)%nat.
Proof. induction a as [| c a IH]; cbn; [reflexivity | now rewrite IH]. Qed.

Lemma startswith_iff (s p : string) :
  startswith s p = true <-> exists rest, s = p ++ rest.
Proof.
  unfold startswith. revert s.
  induction p as [| c p IH]; intros s; cbn.
  - split; [intros _; exists s; reflexivity | intros _].
    destruct s; reflexivity.
  - destruct s as [| c' s]; cbn.
    + split; [discriminate | intros [rest E]; discriminate].
    + destruct (ascii_dec c c') as [-> | Hne].
      * rewrite IH. split; intros [rest E]; exists rest.
        -- now rewrite E.
        -- now inversion E.
      * split; [discriminate | intros [rest E]].
        inversion E. congruence.
Qed.

Lemma substring_all (p : string) : substring 0 (String.length p) p = p.
Proof. induction p as [| c p IH]; cbn; [reflexivity | now rewrite IH]. Qed.

Lemma substring_append_right (pre p : string) :
  substring (String.length pre) (String.length p) (pre ++ p) = p.
Proof.
  induction pre as [| c pre IH]; cbn; [apply substring_all | exact IH].
Qed.

Lemma substring_split (k : nat) (s : string) :
  (k <= String.length s)%nat ->
  s = substring 0 k s ++ substring k (String.length s - k) s.
Proof.
  revert k. induction s as [| c s IH]; intros k Hk; cbn in Hk.
  - assert (k = 0%nat) by lia. subst k. reflexivity.
  - destruct k as [| k]; cbn.
    + now rewrite substring_all.
    + f_equal. apply IH. lia.
Qed.

Lemma endswith_iff (s p : string) :
  endswith s p = true <-> exists pre, s = pre ++ p.
Proof.
  unfold endswith. rewrite andb_true_iff, Nat.leb_le, String.eqb_eq. split.
  - intros [Hle E].
    exists (substring 0 (String.length s - String.length p) s).
    assert (Hk : (String.length s - String.length p <= String.length s)%nat)
      by lia.
    pose proof (substring_split _ s Hk) as Hsp.
    replace (String.length s - (String.length s - String.length p))%nat
      with (String.length p) in Hsp by lia.
    rewrite E in Hsp. exact Hsp.
  - intros [pre ->]. rewrite length_append. split; [lia |].
    replace (String.length pre + String.length p - String.length p)%nat
      with (String.length pre) by lia.
    apply substring_append_right.
Qed.

(** ** Validation and construction *)

Lemma valid_suffix_iff (d : string) :
  endswith d ".aet" || endswith d ".test" = true <->
  exists pre, d = pre ++ ".aet" \/ d = pre ++ ".test".
Proof.
  rewrite orb_true_iff, !endswith_iff. split.
  - intros [[pre E] | [pre E]]; exists pre; auto.
  - intros [pre [E | E]]; [left | right]; exists pre; exact E.
Qed.

(** X1: in permissive mode [validate_name] never raises and accepts
    exactly the domains that end in [.aet] or [.test]; in strict mode it
    returns true on the same domains and raises [ValueError] on all others. *)
Theorem validate_name_suffix (d : string) :
  (validate_name d false = inr true <->
   exists pre, d = pre ++ ".aet" \/ d = pre ++ ".test") /\
  (validate_name d false = inr false <->
   ~ exists pre, d = pre ++ ".aet" \/ d = pre ++ ".test") /\
  (validate_name d true = inr true <-> validate_name d false = inr true) /\
  (validate_name d true = inl (ValueError "AENS TLDs must end in .aet") <->
   validate_name d false = inr false).
Proof.
  pose proof (valid_suffix_iff d) as Hs.
  unfold validate_name.
  destruct (endswith d ".aet" || endswith d ".test"); cbn [negb].
  - repeat split; intros; auto; try discriminate.
    + now apply Hs.
    + exfalso. match goal with Hn : ~ _ |- _ => apply Hn end. now apply Hs.
  - repeat split; intros; auto; try discriminate.
    + match goal with Hx : exists _, _ |- _ => apply Hs in Hx end.
      discriminate.
    + intros Hx. apply Hs in Hx. discriminate.
Qed.

(** X2: in permissive mode [validate_address] never raises and accepts
    exactly the values that start with [ak$] or [ok$]; in strict mode it
    returns true on the same values and raises [ValueError] on all others. *)
Theorem validate_address_prefix (a : string) :
  (validate_address a false = inr true <->
   exists rest, a = "ak$" ++ rest \/ a = "ok$" ++ rest) /\
  (validate_address a false = inr false <->
   ~ exists rest, a = "ak$" ++ rest \/ a = "ok$" ++ rest) /\
  (validate_address a true = inr true <-> validate_address a false = inr true)
  /\
  (validate_address a true
   = inl (ValueError "pointer addresses must start with in ak$") <->
   validate_address a false = inr false).
Proof.
  assert (Hs : startswith a "ak$" || startswith a "ok$" = true <->
               exists rest, a = "ak$" ++ rest \/ a = "ok$" ++ rest).
  { rewrite orb_true_iff, !startswith_iff. split.
    - intros [[rest E] | [rest E]]; exists rest; auto.
    - intros [rest [E | E]]; [left | right]; exists rest; exact E. }
  unfold validate_address.
  destruct (startswith a "ak$" || startswith a "ok$"); cbn [negb].
  - repeat split; intros; auto; try discriminate.
    + now apply Hs.
    + exfalso. match goal with Hn : ~ _ |- _ => apply Hn end. now apply Hs.
  - repeat split; intros; auto; try discriminate.
    + match goal with Hx : exists _, _ |- _ => apply Hs in Hx end.
      discriminate.
    + intros Hx. apply Hs in Hx. discriminate.
Qed.

(** X3: the constructor accepts exactly the domains that end in [.aet] or
    [.test] and raises [ValueError] on all others; the object it builds has
    the given domain, status UNKNOWN, no preclaim data, a TTL of 0 and no
    pointers. *)
Theorem init_accepts_valid_domains (d : string) :
  (__init__ d = inr (mkAEName d UNKNOWN None None None (PyInt 0) (PyList []))
   <-> exists pre, d = pre ++ ".aet" \/ d = pre ++ ".test") /\
  (__init__ d = inl (ValueError "AENS TLDs must end in .aet")
   <-> ~ exists pre, d = pre ++ ".aet" \/ d = pre ++ ".test") /\
  (forall n, __init__ d = inr n ->
             n = mkAEName d UNKNOWN None None None (PyInt 0) (PyList [])).
Proof.
  pose proof (valid_suffix_iff d) as Hs.
  unfold __init__, rbind, validate_name.
  destruct (endswith d ".aet" || endswith d ".test"); cbn [negb].
  - repeat split; intros; auto; try discriminate; try congruence.
    + now apply Hs.
    + exfalso. match goal with Hn : ~ _ |- _ => apply Hn end. now apply Hs.
  - repeat split; intros; auto; try discriminate.
    + match goal with Hx : exists _, _ |- _ => apply Hs in Hx end.
      discriminate.
    + intros Hx. apply Hs in Hx. discriminate.
Qed.

Lemma init_accepts_valid_domains_witness :
  __init__ "alice.test"
  = inr (mkAEName "alice.test" UNKNOWN None None None (PyInt 0) (PyList [])).
Proof.
  destruct (init_accepts_valid_domains "alice.test") as (_ & _ & Hn).
  destruct (__init__ "alice.test") as [e | n] eqn:E; [discriminate |].
  now rewrite (Hn n eq_refl).
Defined.

(** X4: [validate_pointer] never raises, and it answers true on every
    value that exactly one of [validate_address] and [validate_name]
    accepts. *)
Theorem validate_pointer_one_kind (p : string) :
  (exists b, validate_pointer p = inr b) /\
  (validate_address p false = inr true ->
   validate_name p false = inr false ->
   validate_pointer p = inr true) /\
  (validate_address p false = inr false ->
   validate_name p false = inr true ->
   validate_pointer p = inr true).
Proof.
  unfold validate_pointer, validate_address, validate_name, rbind.
  destruct (startswith p "ak$" || startswith p "ok$");
    destruct (endswith p ".aet" || endswith p ".test"); cbn;
    repeat split; intros; try discriminate; eauto.
Qed.

Lemma validate_pointer_one_kind_witness :
  validate_pointer "ak$bob" = inr true /\
  validate_pointer "alice.test" = inr true.
Proof.
  split.
  - destruct (validate_pointer_one_kind "ak$bob") as (_ & Ha & _).
    exact (Ha eq_refl eq_refl).
  - destruct (validate_pointer_one_kind "alice.test") as (_ & _ & Hn).
    exact (Hn eq_refl eq_refl).
Defined.

(** ** Which attributes a call can touch *)

Section Frame.
Context `{Externals} {G : Type} `{EpochClient G}.

(** An attribute that no assignment of the module writes keeps its value
    through any call. *)
Lemma run_op_keeps {A : Type} (field : AEName -> A) (o : Op) (w : World G) :
  (forall n s, field (with_status s n) = field n) ->
  (forall n h, field (with_preclaimed_block_height h n) = field n) ->
  (forall n x, field (with_preclaim_salt x n) = field n) ->
  (forall n t, field (with_name_ttl t n) = field n) ->
  (forall n p, field (with_pointers p n) = field n) ->
  field (self (run_op o w)) = field (self w).
Proof.
  intros Hs Hh Hx Ht Hp.
  set (R := fun n n' : AEName => field n' = field n).
  change (R (self w) (self (run_op o w))).
  destruct o; cbn [run_op]; respects_op R; unfold R; intros; auto;
    congruence.
Qed.

Lemma run_ops_keeps {A : Type} (field : AEName -> A) (os : list Op)
    (w : World G) :
  (forall o w', field (self (run_op o w')) = field (self w')) ->
  field (self (run_ops os w)) = field (self w).
Proof.
  intros Hop. revert w.
  induction os as [| o os IH]; intros w; cbn [run_ops]; [reflexivity |].
  now rewrite IH, Hop.
Qed.

(** X5: the domain of a name never changes, whatever sequence of methods
    is called on it and whether they return or raise. *)
Theorem domain_immutable (os : list Op) (w : World G) :
  domain (self (run_ops os w)) = domain (self w).
Proof.
  apply run_ops_keeps. intros o w'. apply run_op_keeps; reflexivity.
Qed.

(** X6: no method assigns [preclaimed_commitment_hash]: it keeps its
    value through any sequence of calls, so on a name built by the
    constructor it stays unset, successful preclaims included. *)
Theorem commitment_hash_never_assigned (os : list Op) (w : World G) :
  preclaimed_commitment_hash (self (run_ops os w))
  = preclaimed_commitment_hash (self w) /\
  (forall d, __init__ d = inr (self w) ->
             preclaimed_commitment_hash (self (run_ops os w)) = None).
Proof.
  assert (E : preclaimed_commitment_hash (self (run_ops os w))
              = preclaimed_commitment_hash (self w)).
  { apply run_ops_keeps. intros o w'. apply run_op_keeps; reflexivity. }
  split; [exact E |].
  intros d Hd. rewrite E. unfold __init__, rbind in Hd.
  destruct (validate_name d true); inversion Hd as [Hn].
  reflexivity.
Qed.

(** X7: the preclaim height and salt are written by [preclaim] only
    (alone or inside [full_claim_blocking]); the TTL is written only by the
    calls that look the name up; the pointers only by those and [update]. *)
Theorem attributes_frame (o : Op) (w : World G) :
  (runs_preclaim o = false ->
   preclaimed_block_height (self (run_op o w))
   = preclaimed_block_height (self w) /\
   preclaim_salt (self (run_op o w)) = preclaim_salt (self w)) /\
  (reads_registry o = false ->
   name_ttl (self (run_op o w)) = name_ttl (self w)) /\
  (reads_registry o = false -> is_update o = false ->
   pointers (self (run_op o w)) = pointers (self w)).
Proof.
  split; [| split].
  - intros Ho.
    set (R := fun n n' : AEName =>
                preclaimed_block_height n' = preclaimed_block_height n /\
                preclaim_salt n' = preclaim_salt n).
    change (R (self w) (self (run_op o w))).
    destruct o; try discriminate; cbn [run_op]; respects_op R; unfold R;
      cbn; intros; auto; intuition congruence.
  - intros Ho.
    set (R := fun n n' : AEName => name_ttl n' = name_ttl n).
    change (R (self w) (self (run_op o w))).
    destruct o; try discriminate; cbn [run_op]; respects_op R; unfold R;
      cbn; intros; auto; congruence.
  - intros Ho Hu.
    set (R := fun n n' : AEName => pointers n' = pointers n).
    change (R (self w) (self (run_op o w))).
    destruct o; try discriminate; cbn [run_op]; respects_op R; unfold R;
      cbn; intros; auto; congruence.
Qed.

End Frame.

Lemma commitment_hash_never_assigned_witness :
  let w := Sim.world (Sim.fresh "alice.test") 100
             [inl (NotFound PyNone); inr [("commitment", PyStr "cm$1")];
              inr receipt; inr receipt] in
  status (self (run_ops [full_claim_blocking_op Sim.keypair 1 1] w)) = CLAIMED
  /\
  preclaimed_commitment_hash
    (self (run_ops [full_claim_blocking_op Sim.keypair 1 1] w)) = None.
Proof.
  intros w. split; [reflexivity |].
  destruct (commitment_hash_never_assigned
              [full_claim_blocking_op Sim.keypair 1 1] w) as [_ Hinit].
  exact (Hinit "alice.test" eq_refl).
Defined.

Lemma attributes_frame_witness :
  let w := Sim.world (Sim.name "alice.test" CLAIMED (Some 100)) 105
             [inr echo] in
  preclaimed_block_height (self (run_op (update_op (StrTarget "ak$bob") 50 1) w))
  = Some 100 /\
  name_ttl (self (run_op (update_op (StrTarget "ak$bob") 50 1) w)) = PyInt 0 /\
  pointers (self (run_op (revoke_op 1) w)) = PyList [].
Proof.
  intros w.
  destruct (attributes_frame (update_op (StrTarget "ak$bob") 50 1) w)
    as (Hp & Ht & _).
  destruct (attributes_frame (revoke_op 1) w) as (_ & _ & Hq).
  destruct (Hp eq_refl) as [Eh _].
  split; [now rewrite Eh |]. split.
  - now rewrite (Ht eq_refl).
  - now rewrite (Hq eq_refl eq_refl).
Defined.

(** ** The preclaim *)

Section Preclaim.
Context `{Externals} {G : Type} `{EpochClient G}.

(** X8: with a caller-supplied salt and every collaborator answering,
    [preclaim] reads the height, asks for the commitment of (domain, salt),
    posts the preclaim transaction built from it, signs and submits it (in
    that order and nothing else), records height and salt, sets the status to
    PRECLAIMED and returns the transaction hash with the salt. *)
Theorem preclaim_submits (kp : KeyPair) (fee s h : Z) (w : World G)
    (g1 g2 g3 g4 : G) (resp tx : dict) (c account stx signed sig : pyval) :
  get_height (client w) = (inr h, g1) ->
  let params := [("name", PyStr (domain (self w))); ("salt", PyInt s)] in
  external_http_get "commitment-hash" params g1 = (inr resp, g2) ->
  dict_get "commitment" resp = Some c ->
  get_address kp = inr account ->
  let json := [("commitment", c); ("fee", PyInt fee); ("account", account)] in
  external_http_post "/tx/name/preclaim" json g2 = (inr tx, g3) ->
  SignableTransaction tx = inr stx ->
  sign_transaction kp stx = inr (signed, sig) ->
  send_signed_transaction signed g3 = (inr tt, g4) ->
  preclaim kp fee (Some s) w =
  (rbind (getitem tx "tx_hash") (fun tx_hash => inr (tx_hash, PyInt s)),
   mkWorld
     (with_status PRECLAIMED
        (with_preclaim_salt (Some s)
           (with_preclaimed_block_height (Some h) (self w))))
     g4
     (calls w ++
      [get_height_call; external_http_get_call "commitment-hash" params;
       get_address_call; external_http_post_call "/tx/name/preclaim" json;
       sign_transaction_call stx; send_signed_transaction_call signed])
     (entropy w)).
Proof.
  intros Eh params Eget Ec Ea json Epost Estx Esign Esend.
  unfold preclaim, _get_commitment_hash, getitem. run.
  rewrite Eh. simpl_world. cbn [domain with_preclaim_salt
    with_preclaimed_block_height]. fold params. rewrite Eget. simpl_world.
  rewrite Ec, Ea. simpl_world. fold json. rewrite Epost. simpl_world.
  rewrite Estx, Esign. simpl_world. rewrite Esend. simpl_world.
  repeat rewrite <- app_assoc. cbn [app].
  unfold rbind. destruct (dict_get "tx_hash" tx); reflexivity.
Qed.

(** X9: once the height read has answered, [preclaim] has recorded that
    height and a salt, whatever happens afterwards: the caller's salt when
    one is given, otherwise a drawn number between 0 and 2^64 inclusive.
    When the height read fails, the object is untouched. *)
Theorem preclaim_records_height_and_salt (kp : KeyPair) (fee : Z)
    (salt : option Z) (w : World G) :
  (forall h g,
      get_height (client w) = (inr h, g) ->
      preclaimed_block_height (self (exec (preclaim kp fee salt) w)) = Some h
      /\
      exists r,
        preclaim_salt (self (exec (preclaim kp fee salt) w)) = Some r /\
        match salt with
        | Some s => r = s
        | None => 0 <= r <= 2 ^ 64
        end) /\
  (forall e g,
      get_height (client w) = (inl e, g) ->
      fst (preclaim kp fee salt w) = inl (exn_of_ext e) /\
      self (exec (preclaim kp fee salt) w) = self w).
Proof.
  split.
  - intros h g Eh.
    assert (Hdraw : forall d, 0 <= 0 + d mod (2 ^ 64 - 0 + 1) <= 2 ^ 64).
    { intros d.
      pose proof (Z.mod_pos_bound d (2 ^ 64 - 0 + 1)) as Hb. lia. }
    unfold exec, preclaim, _get_commitment_hash, randint. run.
    rewrite Eh. simpl_world.
    destruct salt as [s |]; [| destruct (entropy w) as [| d ds]];
      simpl_world; split_run; cbn;
      (split; [reflexivity | eexists; split; [reflexivity |]]);
      first [reflexivity | apply Hdraw | lia].
  - intros e g Eh. unfold exec, preclaim. run. rewrite Eh. auto.
Qed.

(** X10: when the answer to the commitment request has no [commitment],
    [preclaim] raises [PreclaimFailed] carrying that answer, with a salt
    given by the caller as with a drawn one; the height read and the
    commitment request are the only calls made (nothing is posted, signed or
    submitted) and the status is unchanged, but the height and the salt stay
    recorded. *)
Theorem preclaim_without_commitment (kp : KeyPair) (fee s h : Z)
    (salt : option Z) (w : World G) (g1 g2 : G) (resp : dict) :
  get_height (client w) = (inr h, g1) ->
  match salt with
  | Some given => given = s
  | None => fst (randint 0 (2 ^ 64) w) = inr s
  end ->
  let params := [("name", PyStr (domain (self w))); ("salt", PyInt s)] in
  external_http_get "commitment-hash" params g1 = (inr resp, g2) ->
  dict_get "commitment" resp = None ->
  let w' := exec (preclaim kp fee salt) w in
  fst (preclaim kp fee salt w) = inl (PreclaimFailed resp) /\
  calls w' =
  (calls w ++
   [get_height_call; external_http_get_call "commitment-hash" params])%list /\
  client w' = g2 /\
  entropy w' = match salt with
               | Some _ => entropy w
               | None => tl (entropy w)
               end /\
  status (self w') = status (self w) /\
  preclaimed_block_height (self w') = Some h /\
  preclaim_salt (self w') = Some s /\
  self w' =
  with_preclaim_salt (Some s)
    (with_preclaimed_block_height (Some h) (self w)).
Proof.
  intros Eh Hs params Eget Ec w'. subst w' params.
  unfold exec, preclaim, _get_commitment_hash, getitem. run.
  rewrite Eh. simpl_world.
  destruct salt as [given |]; [subst given |].
  - simpl_world.
    cbn [domain with_preclaim_salt with_preclaimed_block_height].
    rewrite Eget. simpl_world. rewrite Ec.
    repeat rewrite <- app_assoc. repeat split.
  - unfold randint in *. simpl_world.
    destruct (entropy w) as [| d ds].
    + assert (Hd : 0 = s) by (cbn in Hs; congruence).
      simpl_world.
      cbn [domain with_preclaim_salt with_preclaimed_block_height].
      rewrite Hd, Eget. simpl_world. rewrite Ec.
      repeat rewrite <- app_assoc. repeat split.
    + assert (Hd : 0 + d mod (2 ^ 64 - 0 + 1) = s)
        by (cbn [fst] in Hs; congruence).
      simpl_world.
      cbn [domain with_preclaim_salt with_preclaimed_block_height].
      rewrite Hd, Eget. simpl_world. rewrite Ec.
      repeat rewrite <- app_assoc. repeat split.
Qed.

(** What a [preclaim] that returned has left behind. *)
Lemma preclaim_returned (kp : KeyPair) (fee : Z) (salt : option Z)
    (w w1 : World G) (r : pyval * pyval) :
  preclaim kp fee salt w = (inr r, w1) ->
  exists h g s,
    get_height (client w) = (inr h, g) /\
    preclaimed_block_height (self w1) = Some h /\
    preclaim_salt (self w1) = Some s /\
    status (self w1) = PRECLAIMED /\
    domain (self w1) = domain (self w) /\
    snd r = PyInt s /\
    In (external_http_get_call "commitment-hash"
          [("name", PyStr (domain (self w))); ("salt", PyInt s)])
       (calls w1).
Proof.
  unfold preclaim, _get_commitment_hash, randint. run.
  destruct (get_height (client w)) as [[e | h] g] eqn:Eh;
    [intros E; discriminate |].
  simpl_world.
  destruct salt as [s |]; [| destruct (entropy w) as [| d ds]];
    simpl_world; split_run; intros E; inversion E; subst;
    do 3 eexists; cbn;
    (repeat split; try reflexivity);
    rewrite !in_app_iff; cbn; auto 10.
Qed.

(** X11: a [claim] made right after a [preclaim] that returned, with the
    gateway still at the height the preclaim read (or below), raises
    [TooEarlyClaim] and leaves the status PRECLAIMED. *)
Theorem claim_right_after_preclaim (kp : KeyPair) (fee : Z) (salt : option Z)
    (w w1 : World G) (r : pyval * pyval) :
  preclaim kp fee salt w = (inr r, w1) ->
  exists h,
    (exists g, get_height (client w) = (inr h, g)) /\
    preclaimed_block_height (self w1) = Some h /\
    status (self w1) = PRECLAIMED /\
    forall kp' fee' h' g',
      get_height (client w1) = (inr h', g') ->
      h' <= h ->
      fst (claim kp' fee' w1) = inl (TooEarlyClaim too_early_msg) /\
      status (self (exec (claim kp' fee') w1)) = PRECLAIMED.
Proof.
  intros E.
  destruct (preclaim_returned kp fee salt w w1 r E)
    as (h & g & s & Eh & Ep & _ & Es & _).
  exists h. split; [eauto |]. split; [exact Ep |]. split; [exact Es |].
  intros kp' fee' h' g' Eh' Hle. unfold exec.
  rewrite (claim_too_early kp' fee' w1 h h' g' Ep Eh' Hle).
  cbn [fst snd self]. auto.
Qed.

(** The transaction [claim] posts, if it posts one. *)
Lemma claim_posts (kp : KeyPair) (fee : Z) (w : World G) :
  exists l,
    calls (exec (claim kp fee) w) = (calls w ++ l)%list /\
    forall endpoint json,
      In (external_http_post_call endpoint json) l ->
      endpoint = "/tx/name/claim" /\
      dict_get "name_salt" json = Some (opt_int (preclaim_salt (self w))) /\
      exists name,
        _encode_name (domain (self w)) = inr name /\
        dict_get "name" json = Some (PyStr name).
Proof.
  unfold exec, claim. run.
  destruct (preclaimed_block_height (self w)) as [p |];
    [| exists []; rewrite app_nil_r; split; [reflexivity | intros ? ? []]].
  split_run;
    (eexists; split; [repeat rewrite <- app_assoc; reflexivity |]);
    cbn [app]; intros endpoint json Hin; cbn [In] in Hin;
    repeat match goal with
           | Hx : _ \/ _ |- _ => destruct Hx as [Hx | Hx]
           | Hx : False |- _ => contradiction
           | Hx : _ = external_http_post_call _ _ |- _ =>
               first [discriminate Hx | inversion Hx; clear Hx; subst]
           end;
    (split; [reflexivity |]); (split; [reflexivity |]); eauto.
Qed.

(** X12: commit and reveal agree: after a [preclaim] that returned, any
    transaction a later [claim] on the same object posts goes to the claim
    endpoint and carries the salt of the commitment request the preclaim
    made, and the encoded domain. *)
Theorem claim_reveals_committed_salt (kp : KeyPair) (fee : Z)
    (salt : option Z) (w w1 : World G) (r : pyval * pyval) :
  preclaim kp fee salt w = (inr r, w1) ->
  exists s,
    In (external_http_get_call "commitment-hash"
          [("name", PyStr (domain (self w))); ("salt", PyInt s)])
       (calls w1) /\
    forall kp' fee' (w2 : World G),
      self w2 = self w1 ->
      exists l,
        calls (exec (claim kp' fee') w2) = (calls w2 ++ l)%list /\
        forall endpoint json,
          In (external_http_post_call endpoint json) l ->
          endpoint = "/tx/name/claim" /\
          dict_get "name_salt" json = Some (PyInt s) /\
          exists name,
            _encode_name (domain (self w)) = inr name /\
            dict_get "name" json = Some (PyStr name).
Proof.
  intros E.
  destruct (preclaim_returned kp fee salt w w1 r E)
    as (h & g & s & _ & _ & Esalt & _ & Ed & _ & Hin).
  exists s. split; [exact Hin |].
  intros kp' fee' w2 Eself.
  destruct (claim_posts kp' fee' w2) as (l & El & Hl).
  exists l. split; [exact El |].
  intros endpoint json Hj.
  destruct (Hl endpoint json Hj) as (He & Hs & name & Hn & Hname).
  rewrite Eself, Esalt in Hs. rewrite Eself, Ed in Hn.
  split; [exact He |]. split; [exact Hs |]. eauto.
Qed.

End Preclaim.

(** ** Looking a name up *)

Section Lookup.
Context `{Externals} {G : Type} `{EpochClient G}.

(** X13: [update_status] makes one gateway call whatever the outcome, the
    lookup of the domain; a gateway failure other than not-found is raised
    with the object unchanged. *)
Theorem update_status_one_lookup (w : World G) :
  let params := [("name", PyStr (domain (self w)))] in
  calls (exec update_status w)
  = (calls w ++ [external_http_get_call "name" params])%list /\
  (forall descr g,
      external_http_get "name" params (client w) = (inl (Failure descr), g) ->
      fst (update_status w) = inl (CollaboratorFailure descr) /\
      self (exec update_status w) = self w).
Proof.
  intros params. split.
  - destruct (external_http_get "name" params (client w))
      as [[[payload | descr] | response] g] eqn:E.
    + unfold exec. rewrite (update_status_not_found w payload g E).
      reflexivity.
    + unfold exec, update_status. run. fold params. rewrite E. reflexivity.
    + unfold exec. rewrite (update_status_found w response g E). cbv zeta.
      destruct (getitem response "name_ttl");
        [| destruct (rbind (getitem response "pointers") loads)];
        reflexivity.
  - intros descr g E. unfold exec, update_status. run. fold params.
    rewrite E. auto.
Qed.

(** X14: a lookup answer that lacks a field stops [update_status] half
    way: without [name_ttl] it raises [KeyError] with only the status (now
    CLAIMED) changed; with [name_ttl] but without [pointers] it raises
    [KeyError] after the TTL has been stored too; pointers that are not a
    text, or a text that does not parse, raise [TypeError] or the decoding
    error at the same point. The old pointers are kept in each case. *)
Theorem update_status_incomplete_answer (w : World G) (response : dict)
    (g : G) :
  let params := [("name", PyStr (domain (self w)))] in
  external_http_get "name" params (client w) = (inr response, g) ->
  (dict_get "name_ttl" response = None ->
   fst (update_status w) = inl (KeyError "name_ttl") /\
   self (exec update_status w) = with_status CLAIMED (self w)) /\
  (forall ttl,
      dict_get "name_ttl" response = Some ttl ->
      let stored := with_name_ttl ttl (with_status CLAIMED (self w)) in
      (dict_get "pointers" response = None ->
       fst (update_status w) = inl (KeyError "pointers") /\
       self (exec update_status w) = stored) /\
      (forall text,
          dict_get "pointers" response = Some (PyStr text) ->
          json_loads text = None ->
          fst (update_status w) = inl JSONDecodeError /\
          self (exec update_status w) = stored) /\
      (forall p,
          dict_get "pointers" response = Some p ->
          (forall text, p <> PyStr text) ->
          fst (update_status w) = inl TypeError /\
          self (exec update_status w) = stored)).
Proof.
  intros params E. unfold exec.
  rewrite (update_status_found w response g E). cbv zeta.
  unfold getitem, rbind, loads. split.
  - intros ->. auto.
  - intros ttl ->. cbv zeta. split; [| split].
    + intros ->. auto.
    + intros text -> ->. auto.
    + intros p -> Hp. destruct p; auto. exfalso. now apply (Hp s).
Qed.

(** X15: what [is_available] and [check_claimed] answer. After a
    not-found lookup, [is_available] is true exactly for a name that was
    UNKNOWN or AVAILABLE, and [check_claimed] is true exactly for a name that
    was already CLAIMED locally; after a lookup that found the name (with
    both fields, pointers parsing), [is_available] is false and
    [check_claimed] is true, whatever the status was. *)
Theorem availability_answers (w : World G) :
  let params := [("name", PyStr (domain (self w)))] in
  (forall payload g,
      external_http_get "name" params (client w) = (inl (NotFound payload), g)
      ->
      fst (is_available w)
      = inr (NameStatus_eqb (status (self w)) UNKNOWN
             || NameStatus_eqb (status (self w)) AVAILABLE) /\
      fst (check_claimed w) = inr (NameStatus_eqb (status (self w)) CLAIMED))
  /\
  (forall response g ttl p ps,
      external_http_get "name" params (client w) = (inr response, g) ->
      dict_get "name_ttl" response = Some ttl ->
      dict_get "pointers" response = Some p ->
      loads p = inr ps ->
      fst (is_available w) = inr false /\ fst (check_claimed w) = inr true).
Proof.
  intros params. split.
  - intros payload g E. unfold is_available, check_claimed. run.
    rewrite (update_status_not_found w payload g E). simpl_world.
    destruct (status (self w)) eqn:Es; cbn; rewrite ?Es; auto.
  - intros response g ttl p ps E Ettl Ep Eps.
    unfold is_available, check_claimed. run.
    rewrite (update_status_found w response g E). cbv zeta.
    unfold getitem, rbind. rewrite Ettl, Ep, Eps. auto.
Qed.

(** X16: [full_claim_blocking] stops after the lookup when the name is
    not available: after a not-found answer on a name that is neither UNKNOWN
    nor AVAILABLE, and after any answer that found the name, it raises
    (in the first case, and in the second when the answer is complete,
    [NameNotAvailable] carrying the domain) and the lookup is the only call
    made; nothing is preclaimed. After a not-found answer on an UNKNOWN or
    AVAILABLE name it goes on with [preclaim] and [claim_blocking] on the
    name marked AVAILABLE. *)
Theorem full_claim_blocking_checks_availability (kp : KeyPair)
    (preclaim_fee claim_fee : Z) (w : World G) :
  let params := [("name", PyStr (domain (self w)))] in
  let log := (calls w ++ [external_http_get_call "name" params])%list in
  let run := full_claim_blocking kp preclaim_fee claim_fee in
  (forall payload g,
      external_http_get "name" params (client w) = (inl (NotFound payload), g)
      ->
      (status (self w) <> UNKNOWN -> status (self w) <> AVAILABLE ->
       run w = (inl (NameNotAvailable (PyStr (domain (self w)))),
                mkWorld (self w) g log (entropy w))) /\
      (status (self w) = UNKNOWN \/ status (self w) = AVAILABLE ->
       run w =
       bind (preclaim kp preclaim_fee None)
         (fun _ => claim_blocking kp claim_fee)
         (mkWorld (with_status AVAILABLE (self w)) g log (entropy w)))) /\
  (forall response g,
      external_http_get "name" params (client w) = (inr response, g) ->
      (exists e, fst (run w) = inl e) /\
      calls (exec run w) = log /\
      preclaimed_block_height (self (exec run w))
      = preclaimed_block_height (self w) /\
      (forall ttl p ps,
          dict_get "name_ttl" response = Some ttl ->
          dict_get "pointers" response = Some p ->
          loads p = inr ps ->
          fst (run w) = inl (NameNotAvailable (PyStr (domain (self w)))))).
Proof.
  intros params log run. subst run log. split.
  - intros payload g E. split.
    + intros Hu Ha. unfold full_claim_blocking, is_available. run.
      rewrite (update_status_not_found w payload g E). simpl_world.
      destruct (status (self w)) eqn:Es; try contradiction;
        cbn [NameStatus_eqb]; rewrite Es; reflexivity.
    + intros Hs. unfold full_claim_blocking, is_available. run.
      rewrite (update_status_not_found w payload g E). simpl_world.
      destruct Hs as [Es | Es]; rewrite Es; cbn [NameStatus_eqb].
      * reflexivity.
      * rewrite Es. cbn [NameStatus_eqb negb].
        replace (with_status AVAILABLE (self w)) with (self w);
          [reflexivity |].
        destruct (self w); cbn in *; subst; reflexivity.
  - intros response g E.
    unfold exec, full_claim_blocking, is_available. run.
    rewrite (update_status_found w response g E). cbv zeta.
    destruct (getitem response "name_ttl") as [e | ttl] eqn:Ettl;
      [| destruct (rbind (getitem response "pointers") loads)
           as [e | ps] eqn:Eps];
      simpl_world;
      cbn [status with_pointers with_name_ttl with_status NameStatus_eqb negb
           domain preclaimed_block_height fst snd self calls].
    + repeat split; eauto.
      intros ttl p ps Ht. unfold getitem in Ettl. rewrite Ht in Ettl.
      discriminate.
    + repeat split; eauto.
      intros ttl' p ps' Ht Hp Hps. unfold getitem, rbind in *.
      rewrite Hp, Hps in Eps. discriminate.
    + repeat split; eauto.
Qed.

End Lookup.

(** ** Managing a claimed name *)

Section Pointers.
Context `{Externals} {G : Type} `{EpochClient G}.

(** X17: a successful [update] (CLAIMED name, response with [name_hash])
    replaces the pointers by a mapping with exactly one entry, keyed
    [account_pubkey] when the target starts with [ak] and [oracle_pubkey]
    otherwise; whatever pointers were stored before are gone, and nothing
    else in the object changes. *)
Theorem update_sets_one_pointer (target : Target) (ttl fee : Z) (w : World G)
    (t nh : string) (response : dict) (g : G) :
  status (self w) = CLAIMED ->
  target_id target = Some t ->
  _encode_name (domain (self w)) = inr nh ->
  internal_http_post "name-update-tx"
    [("name_hash", PyStr nh); ("name_ttl", name_ttl (self w));
     ("ttl", PyInt ttl);
     ("pointers", PyStr (json_dumps (PyDict (pointers_for t))));
     ("fee", PyInt fee)] (client w)
  = (inr response, g) ->
  dict_contains "name_hash" response = true ->
  fst (update target ttl fee w) = inr tt /\
  ((exists rest, t = "ak" ++ rest) ->
   self (exec (update target ttl fee) w)
   = with_pointers (PyDict [("account_pubkey", PyStr t)]) (self w)) /\
  ((~ exists rest, t = "ak" ++ rest) ->
   self (exec (update target ttl fee) w)
   = with_pointers (PyDict [("oracle_pubkey", PyStr t)]) (self w)).
Proof.
  intros Es Et En Epost Ec. unfold exec.
  rewrite (update_run target ttl fee w t nh response g Es Et En Epost), Ec.
  cbn [fst snd self]. unfold pointers_for.
  split; [reflexivity |]. split; intros Hk.
  - apply startswith_iff in Hk. now rewrite Hk.
  - destruct (startswith t "ak") eqn:Ek; [| reflexivity].
    apply startswith_iff in Ek. contradiction.
Qed.

(** X18: an [Oracle] target stands for its identifier: with an identifier
    assigned, [update] behaves as on that string; without one, on a CLAIMED
    name, it raises [ValueError] before any call is made. *)
Theorem update_oracle_target (ttl fee : Z) (w : World G) :
  (forall id,
      update (OracleTarget (mkOracle (Some id))) ttl fee w
      = update (StrTarget id) ttl fee w) /\
  (status (self w) = CLAIMED ->
   update (OracleTarget (mkOracle None)) ttl fee w
   = (inl (ValueError
             "You must register the oracle before using it as target"), w)).
Proof.
  split.
  - intros id. reflexivity.
  - intros Es. unfold update. run. rewrite Es. reflexivity.
Qed.

(** X19: [transfer_ownership] posts one transfer request; when the
    response has no [name_hash] it raises [AENSException] carrying the
    response and the object is unchanged; when it has one, the status becomes
    TRANSFERRED and nothing else in the object changes. *)
Theorem transfer_ownership_echo (receipient_pubkey : string) (fee : Z)
    (w : World G) (nh : string) (response : dict) (g : G) :
  _encode_name (domain (self w)) = inr nh ->
  let json := [("name_hash", PyStr nh);
               ("recipient_pubkey", PyStr receipient_pubkey);
               ("fee", PyInt fee)] in
  internal_http_post "name-transfer-tx" json (client w) = (inr response, g) ->
  calls (exec (transfer_ownership receipient_pubkey fee) w)
  = (calls w ++ [internal_http_post_call "name-transfer-tx" json])%list /\
  (dict_contains "name_hash" response = false ->
   fst (transfer_ownership receipient_pubkey fee w)
   = inl (AENSException "transfer ownership failed" response) /\
   self (exec (transfer_ownership receipient_pubkey fee) w) = self w) /\
  (dict_contains "name_hash" response = true ->
   fst (transfer_ownership receipient_pubkey fee w) = inr tt /\
   self (exec (transfer_ownership receipient_pubkey fee) w)
   = with_status TRANSFERRED (self w)).
Proof.
  intros En json Epost. unfold exec.
  rewrite (transfer_ownership_run receipient_pubkey fee w nh response g
             En Epost).
  destruct (dict_contains "name_hash" response); cbn [fst snd self calls];
    repeat split; intros; auto; discriminate.
Qed.

(** X20: a domain with a character outside ASCII passes the constructor
    when its suffix is right, but has no name hash: [revoke] and
    [transfer_ownership] raise [UnicodeEncodeError] before any call is made,
    and so does [update] on a CLAIMED name with a usable target. *)
Theorem non_ascii_domain_has_no_hash (w : World G) :
  is_ascii (domain (self w)) = false ->
  (forall fee, revoke fee w = (inl UnicodeEncodeError, w)) /\
  (forall r fee, transfer_ownership r fee w = (inl UnicodeEncodeError, w)) /\
  (forall target ttl fee t,
      status (self w) = CLAIMED ->
      target_id target = Some t ->
      update target ttl fee w = (inl UnicodeEncodeError, w)) /\
  ((exists pre, domain (self w) = pre ++ ".aet" \/
                domain (self w) = pre ++ ".test") ->
   exists n, __init__ (domain (self w)) = inr n).
Proof.
  intros Ha.
  assert (En : _encode_name (domain (self w)) = inl UnicodeEncodeError).
  { unfold _encode_name, encode_ascii, rbind. now rewrite Ha. }
  split; [| split; [| split]].
  - intros fee. unfold revoke, name_hash. run. now rewrite En.
  - intros r fee. unfold transfer_ownership, name_hash. run. now rewrite En.
  - intros target ttl fee t Es Et. unfold update, name_hash. run.
    rewrite Es. cbn [NameStatus_eqb].
    destruct target as [[oid] | t0]; cbn [target_id oracle_id] in *;
      [rewrite Et | idtac]; now rewrite En.
  - intros Hs. apply valid_suffix_iff in Hs.
    unfold __init__, validate_name, rbind. rewrite Hs. cbn [negb].
    eexists. reflexivity.
Qed.

(** X21: a claim transaction answered without [tx_hash] is still signed
    and submitted: [claim] then raises [KeyError] although the transaction
    has been sent and the status is already CLAIMED. *)
Theorem claim_without_tx_hash (kp : KeyPair) (fee : Z) (w : World G) (p h : Z)
    (g g2 g3 : G) (account stx signed sig : pyval) (name : string) (tx : dict) :
  preclaimed_block_height (self w) = Some p ->
  get_height (client w) = (inr h, g) ->
  p < h ->
  get_address kp = inr account ->
  _encode_name (domain (self w)) = inr name ->
  external_http_post "/tx/name/claim"
    [("account", account); ("name", PyStr name);
     ("name_salt", opt_int (preclaim_salt (self w))); ("fee", PyInt fee)] g
  = (inr tx, g2) ->
  SignableTransaction tx = inr stx ->
  sign_transaction kp stx = inr (signed, sig) ->
  send_signed_transaction signed g2 = (inr tt, g3) ->
  dict_get "tx_hash" tx = None ->
  fst (claim kp fee w) = inl (KeyError "tx_hash") /\
  status (self (exec (claim kp fee) w)) = CLAIMED /\
  In (send_signed_transaction_call signed) (calls (exec (claim kp fee) w)).
Proof.
  intros Ep Eh Hlt Ea En Epost Estx Esign Esend Etx. unfold exec.
  rewrite (claim_submits kp fee w p h g g2 g3 account stx signed sig name tx
             Ep Eh Hlt Ea En Epost Estx Esign Esend).
  unfold getitem, rbind. rewrite Etx. cbn [fst snd self calls status
    with_status].
  repeat split. rewrite in_app_iff. right. cbn. auto 10.
Qed.

End Pointers.

(** ** The call log *)

Section Emits.
Context `{Externals} {G : Type} `{EpochClient G}.
Variable P : Call -> bool.

Lemma emits_nothing {A : Type} (m : M G A) :
  (forall w, calls (exec m w) = calls w) -> emits P m.
Proof.
  intros Hm w. exists []. rewrite app_nil_r. split; [apply Hm | reflexivity].
Qed.

Lemma emits_ret {A : Type} (a : A) : emits P (@ret G A a).
Proof. now apply emits_nothing. Qed.

Lemma emits_raise {A : Type} (e : exn) : emits P (@raise G A e).
Proof. now apply emits_nothing. Qed.

Lemma emits_lift {A : Type} (r : result A) : emits P (@lift G A r).
Proof. now apply emits_nothing. Qed.

Lemma emits_get {A : Type} (field : AEName -> A) : emits P (@get G A field).
Proof. now apply emits_nothing. Qed.

Lemma emits_modify (f : AEName -> AEName) : emits P (@modify G f).
Proof. now apply emits_nothing. Qed.

Lemma emits_randint (lo hi : Z) : emits P (@randint G lo hi).
Proof.
  apply emits_nothing. intros w. unfold exec, randint.
  destruct (entropy w); reflexivity.
Qed.

Lemma emits_on_client {A : Type} (c : Call)
    (method : G -> (ext_exn + A) * G) :
  P c = true -> emits P (on_client c method).
Proof.
  intros Hc w. exists [c]. unfold exec, on_client.
  destruct (method (client w)) as [[e | a] g]; cbn; now rewrite Hc.
Qed.

Lemma emits_on_keypair {A : Type} (c : Call) (r : ext_exn + A) :
  P c = true -> emits P (@on_keypair G A c r).
Proof.
  intros Hc w. exists [c]. unfold exec, on_keypair.
  destruct r; cbn; now rewrite Hc.
Qed.

Lemma emits_bind {A B : Type} (m : M G A) (k : A -> M G B) :
  emits P m -> (forall a, emits P (k a)) -> emits P (bind m k).
Proof.
  intros Hm Hk w. destruct (Hm w) as (l1 & E1 & P1).
  unfold exec, bind in *.
  destruct (m w) as [[e | a] w1]; cbn [snd] in *; [eauto |].
  destruct (Hk a w1) as (l2 & E2 & P2). unfold exec in E2.
  exists (l1 ++ l2)%list. rewrite E2, E1, app_assoc, forallb_app, P1, P2.
  auto.
Qed.

Lemma emits_try_except {A : Type} (body : M G A)
    (handler : exn -> option (M G A)) :
  emits P body ->
  (forall e, match handler e with
             | Some h => emits P h
             | None => True
             end) ->
  emits P (try_except body handler).
Proof.
  intros Hb Hh w. destruct (Hb w) as (l1 & E1 & P1).
  unfold exec, try_except in *.
  destruct (body w) as [[e | a] w1]; cbn [snd] in *; [| eauto].
  specialize (Hh e). destruct (handler e) as [h |]; [| eauto].
  destruct (Hh w1) as (l2 & E2 & P2). unfold exec in E2.
  exists (l1 ++ l2)%list. rewrite E2, E1, app_assoc, forallb_app, P1, P2.
  auto.
Qed.

Ltac emits_step :=
  first
    [ apply emits_ret | apply emits_raise | apply emits_lift
    | apply emits_get | apply emits_randint | apply emits_modify
    | apply emits_on_client; solve [auto]
    | apply emits_on_keypair; solve [auto]
    | apply emits_bind; [| intros ?]
    | match goal with
      | |- emits _ (match ?x with _ => _ end) => destruct x
      end ].

(** What [P] has to allow for each collaborator call the methods make. *)
Hypothesis P_lookup : forall params, P (external_http_get_call "name" params) = true.
Hypothesis P_commitment :
  forall params, P (external_http_get_call "commitment-hash" params) = true.
Hypothesis P_external_post :
  forall endpoint json, P (external_http_post_call endpoint json) = true.
Hypothesis P_internal_post :
  forall endpoint json, P (internal_http_post_call endpoint json) = true.
Hypothesis P_get_height : P get_height_call = true.
Hypothesis P_wait : P wait_for_next_block_call = true.
Hypothesis P_send : forall tx, P (send_signed_transaction_call tx) = true.
Hypothesis P_get_address : P get_address_call = true.
Hypothesis P_sign : forall tx, P (sign_transaction_call tx) = true.

Lemma emits_update_status : emits P update_status.
Proof.
  unfold update_status. apply emits_try_except.
  - repeat emits_step.
  - intros e. destruct e; try exact I. repeat emits_step.
Qed.

Lemma emits_is_available : emits P is_available.
Proof.
  unfold is_available. apply emits_bind; [apply emits_update_status |].
  intros _. repeat emits_step.
Qed.

Lemma emits_check_claimed : emits P check_claimed.
Proof.
  unfold check_claimed. apply emits_bind; [apply emits_update_status |].
  intros _. repeat emits_step.
Qed.

Lemma emits__get_commitment_hash (salt : Z) :
  emits P (_get_commitment_hash salt).
Proof.
  unfold _get_commitment_hash. repeat emits_step.
  apply emits_try_except; [emits_step |].
  intros e. destruct e; try exact I. emits_step.
Qed.

Lemma emits_preclaim (kp : KeyPair) (fee : Z) (salt : option Z) :
  emits P (preclaim kp fee salt).
Proof.
  unfold preclaim.
  repeat first [ apply emits__get_commitment_hash | emits_step ].
Qed.

Lemma emits_claim (kp : KeyPair) (fee : Z) : emits P (claim kp fee).
Proof. unfold claim. repeat emits_step. Qed.

Lemma emits_claim_blocking (kp : KeyPair) (fee : Z) :
  emits P (claim_blocking kp fee).
Proof.
  unfold claim_blocking. apply emits_try_except.
  - apply emits_bind; [apply emits_claim | intros ?; emits_step].
  - intros e. destruct e; try exact I.
    repeat first [ apply emits_claim | emits_step ].
Qed.

Lemma emits_full_claim_blocking (kp : KeyPair) (preclaim_fee claim_fee : Z) :
  emits P (full_claim_blocking kp preclaim_fee claim_fee).
Proof.
  unfold full_claim_blocking.
  repeat first [ apply emits_is_available | apply emits_preclaim
               | apply emits_claim_blocking | emits_step ].
Qed.

Lemma emits_update (target : Target) (ttl fee : Z) :
  emits P (update target ttl fee).
Proof. unfold update, name_hash. repeat emits_step. Qed.

Lemma emits_transfer_ownership (receipient_pubkey : string) (fee : Z) :
  emits P (transfer_ownership receipient_pubkey fee).
Proof. unfold transfer_ownership, name_hash. repeat emits_step. Qed.

Lemma emits_revoke (fee : Z) : emits P (revoke fee).
Proof. unfold revoke, name_hash. repeat emits_step. Qed.

End Emits.

Ltac emits_op P :=
  first
    [ apply (emits_update_status P) | apply (emits_is_available P)
    | apply (emits_check_claimed P)
    | apply (emits_full_claim_blocking P) | apply (emits_preclaim P)
    | apply (emits_claim_blocking P) | apply (emits_claim P)
    | apply (emits_update P) | apply (emits_transfer_ownership P)
    | apply (emits_revoke P) ].

Section CallLog.
Context `{Externals} {G : Type} `{EpochClient G}.

(** X22: every method only appends to the call log, and none but
    [claim_blocking] and [full_claim_blocking] ever waits for a block. *)
Theorem only_blocking_claims_wait (o : Op) (w : World G) :
  exists l,
    calls (run_op o w) = (calls w ++ l)%list /\
    (waits_for_block o = false -> count is_wait_for_next_block l = 0%nat).
Proof.
  destruct (waits_for_block o) eqn:Ho.
  - assert (He : exists l, calls (run_op o w) = (calls w ++ l)%list /\
                           forallb (fun _ => true) l = true).
    { destruct o; cbn [run_op]; emits_op (fun _ : Call => true); auto. }
    destruct He as (l & El & _). exists l. split; [exact El | discriminate].
  - assert (He : exists l,
               calls (run_op o w) = (calls w ++ l)%list /\
               forallb (fun c => negb (is_wait_for_next_block c)) l = true).
    { destruct o; try discriminate; cbn [run_op];
        emits_op (fun c => negb (is_wait_for_next_block c)); auto. }
    destruct He as (l & El & Pl). exists l. split; [exact El | intros _].
    unfold count. clear El. induction l as [| c l IH]; [reflexivity |].
    cbn in *. apply andb_true_iff in Pl. destruct Pl as [Pc Pl].
    destruct (is_wait_for_next_block c); [discriminate | auto].
Qed.

(** X23: the calls that look a name up ([update_status], [is_available],
    [check_claimed]) issue nothing but lookups of a name, and [update],
    [transfer_ownership] and [revoke] nothing but posts to the node's
    internal endpoint: none of them posts a transaction to the external
    endpoint, signs or submits anything. *)
Theorem management_calls (o : Op) (w : World G) :
  exists l,
    calls (run_op o w) = (calls w ++ l)%list /\
    match o with
    | update_status_op | is_available_op | check_claimed_op =>
        forallb is_lookup l = true
    | update_op _ _ _ | transfer_ownership_op _ _ | revoke_op _ =>
        forallb is_internal_post l = true
    | _ => True
    end.
Proof.
  destruct o; cbn [run_op];
    try (emits_op is_lookup; reflexivity);
    try (emits_op is_internal_post; reflexivity).
  all: match goal with
       | |- exists l, calls (exec ?m ?w0) = _ /\ True =>
           assert (He : emits (fun _ => true) m)
             by (emits_op (fun _ : Call => true); auto);
           destruct (He w0) as (l & El & _); eauto
       end.
Qed.

End CallLog.

(** ** Further concrete runs *)

Lemma preclaim_submits_witness :
  let w := Sim.world (Sim.fresh "alice.test") 100
             [inr commitment; inr receipt] in
  fst (preclaim Sim.keypair 1 (Some 7) w) = inr (PyStr "th$1", PyInt 7) /\
  status (self (exec (preclaim Sim.keypair 1 (Some 7)) w)) = PRECLAIMED /\
  preclaimed_block_height (self (exec (preclaim Sim.keypair 1 (Some 7)) w))
  = Some 100.
Proof.
  intros w.
  pose proof (preclaim_submits Sim.keypair 1 7 100 w
                (Sim.mkNode 100 [inr commitment; inr receipt])
                (Sim.mkNode 100 [inr receipt]) (Sim.mkNode 100 [])
                (Sim.mkNode 100 []) commitment receipt (PyStr "cm$1")
                (PyStr "ak$alice") (PyDict receipt)
                (PyList [PyDict receipt; PyStr "sg$alice"]) (PyStr "sg$alice"))
    as Hrun.
  unfold exec.
  rewrite (Hrun eq_refl eq_refl eq_refl eq_refl eq_refl eq_refl eq_refl
             eq_refl).
  repeat split.
Defined.

Lemma preclaim_records_height_and_salt_witness :
  let w := Sim.world (Sim.fresh "alice.test") 100 [inr rejection] in
  preclaimed_block_height (self (exec (preclaim Sim.keypair 1 None) w))
  = Some 100 /\
  exists r,
    preclaim_salt (self (exec (preclaim Sim.keypair 1 None) w)) = Some r /\
    0 <= r <= 2 ^ 64.
Proof.
  intros w.
  destruct (preclaim_records_height_and_salt Sim.keypair 1 None w)
    as [Hread _].
  exact (Hread 100 (Sim.mkNode 100 [inr rejection]) eq_refl).
Defined.

Lemma preclaim_without_commitment_witness :
  (let w := Sim.world (Sim.fresh "alice.test") 100 [inr rejection] in
   fst (preclaim Sim.keypair 1 (Some 7) w) = inl (PreclaimFailed rejection) /\
   status (self (exec (preclaim Sim.keypair 1 (Some 7)) w)) = UNKNOWN /\
   preclaim_salt (self (exec (preclaim Sim.keypair 1 (Some 7)) w)) = Some 7)
  /\
  (let w := mkWorld (Sim.fresh "alice.test") (Sim.mkNode 100 [inr rejection])
              [] [41] in
   fst (preclaim Sim.keypair 1 None w) = inl (PreclaimFailed rejection) /\
   status (self (exec (preclaim Sim.keypair 1 None) w)) = UNKNOWN /\
   preclaimed_block_height (self (exec (preclaim Sim.keypair 1 None) w))
   = Some 100 /\
   preclaim_salt (self (exec (preclaim Sim.keypair 1 None) w)) = Some 41 /\
   entropy (exec (preclaim Sim.keypair 1 None) w) = []).
Proof.
  split; intros w.
  - pose proof (preclaim_without_commitment Sim.keypair 1 7 100 (Some 7) w
                  (Sim.mkNode 100 [inr rejection]) (Sim.mkNode 100 [])
                  rejection) as Hrun.
    destruct (Hrun eq_refl eq_refl eq_refl eq_refl)
      as (E & _ & _ & _ & Es & _ & Esalt & _).
    split; [exact E |]. split; [exact Es | exact Esalt].
  - pose proof (preclaim_without_commitment Sim.keypair 1 41 100 None w
                  (Sim.mkNode 100 [inr rejection]) (Sim.mkNode 100 [])
                  rejection) as Hrun.
    destruct (Hrun eq_refl eq_refl eq_refl eq_refl)
      as (E & _ & _ & Ent & Es & Eh & Esalt & _).
    split; [exact E |]. split; [exact Es |]. split; [exact Eh |].
    split; [exact Esalt | exact Ent].
Defined.

Lemma claim_right_after_preclaim_witness :
  let w := Sim.world (Sim.fresh "alice.test") 100
             [inr commitment; inr receipt; inr receipt] in
  let w1 := exec (preclaim Sim.keypair 1 (Some 7)) w in
  fst (claim Sim.keypair 1 w1) = inl (TooEarlyClaim too_early_msg) /\
  status (self (exec (claim Sim.keypair 1) w1)) = PRECLAIMED.
Proof.
  intros w w1.
  pose proof (claim_right_after_preclaim Sim.keypair 1 (Some 7) w w1
                (PyStr "th$1", PyInt 7)) as Hafter.
  destruct (Hafter eq_refl) as (h & [g Eh] & _ & _ & Hclaim).
  assert (Eh100 : h = 100) by (cbn in Eh; congruence).
  apply (Hclaim Sim.keypair 1 100 (Sim.mkNode 100 [inr receipt]) eq_refl).
  lia.
Defined.

Lemma claim_reveals_committed_salt_witness :
  let w := Sim.world (Sim.fresh "alice.test") 100
             [inr commitment; inr receipt] in
  let w1 := exec (preclaim Sim.keypair 1 (Some 7)) w in
  exists s,
    In (external_http_get_call "commitment-hash"
          [("name", PyStr "alice.test"); ("salt", PyInt s)])
       (calls w1) /\
    exists l,
      calls (exec (claim Sim.keypair 1)
               (Sim.world (self w1) 101 [inr receipt]))
      = l /\
      forall endpoint json,
        In (external_http_post_call endpoint json) l ->
        dict_get "name_salt" json = Some (PyInt s).
Proof.
  intros w w1.
  pose proof (claim_reveals_committed_salt Sim.keypair 1 (Some 7) w w1
                (PyStr "th$1", PyInt 7)) as Hreveal.
  destruct (Hreveal eq_refl) as (s & Hin & Hclaim).
  exists s. split; [exact Hin |].
  destruct (Hclaim Sim.keypair 1 (Sim.world (self w1) 101 [inr receipt])
              eq_refl) as (l & El & Hl).
  exists l. split; [exact El |].
  intros endpoint json Hj. now destruct (Hl endpoint json Hj) as (_ & Hs & _).
Defined.

Lemma update_status_one_lookup_witness :
  let w := Sim.world (Sim.name "alice.test" CLAIMED (Some 100)) 105 [] in
  fst (update_status w) = inl (CollaboratorFailure "connection closed") /\
  self (exec update_status w) = self w.
Proof.
  intros w. destruct (update_status_one_lookup w) as [_ Hfail].
  exact (Hfail "connection closed" (Sim.mkNode 105 []) eq_refl).
Defined.

Lemma update_status_incomplete_answer_witness :
  let w := Sim.world (Sim.fresh "alice.test") 100
             [inr [("name_ttl", PyInt 500)]] in
  fst (update_status w) = inl (KeyError "pointers") /\
  status (self (exec update_status w)) = CLAIMED /\
  name_ttl (self (exec update_status w)) = PyInt 500 /\
  pointers (self (exec update_status w)) = PyList [].
Proof.
  intros w.
  pose proof (update_status_incomplete_answer w [("name_ttl", PyInt 500)]
                (Sim.mkNode 100 [])) as Hrun.
  destruct (Hrun eq_refl) as [_ Httl].
  destruct (Httl (PyInt 500) eq_refl) as [Hmissing _].
  destruct (Hmissing eq_refl) as [E Eself].
  split; [exact E |]. rewrite Eself. repeat split.
Defined.

Lemma availability_answers_witness :
  (let w := Sim.world (Sim.name "alice.test" CLAIMED (Some 100)) 105
              [inl (NotFound PyNone)] in
   fst (is_available w) = inr false /\ fst (check_claimed w) = inr true) /\
  (let w := Sim.world (Sim.fresh "alice.test") 100 [inr record] in
   fst (is_available w) = inr false /\ fst (check_claimed w) = inr true).
Proof.
  split; intros w.
  - destruct (availability_answers w) as [Hnf _].
    exact (Hnf PyNone (Sim.mkNode 105 []) eq_refl).
  - destruct (availability_answers w) as [_ Hfound].
    exact (Hfound record (Sim.mkNode 100 []) (PyInt 500) (PyStr "[]")
             (PyList []) eq_refl eq_refl eq_refl eq_refl).
Defined.

Lemma full_claim_blocking_checks_availability_witness :
  (let w := Sim.world (Sim.name "alice.test" PRECLAIMED (Some 100)) 105
              [inl (NotFound PyNone); inr commitment] in
   fst (full_claim_blocking Sim.keypair 1 1 w)
   = inl (NameNotAvailable (PyStr "alice.test"))) /\
  (let w := Sim.world (Sim.fresh "alice.test") 100
              [inr record; inr commitment] in
   fst (full_claim_blocking Sim.keypair 1 1 w)
   = inl (NameNotAvailable (PyStr "alice.test")) /\
   preclaimed_block_height (self (exec (full_claim_blocking Sim.keypair 1 1) w))
   = None).
Proof.
  split; intros w.
  - destruct (full_claim_blocking_checks_availability Sim.keypair 1 1 w)
      as [Hnf _].
    destruct (Hnf PyNone (Sim.mkNode 105 [inr commitment]) eq_refl)
      as [Hstop _].
    rewrite Hstop; [reflexivity | discriminate | discriminate].
  - destruct (full_claim_blocking_checks_availability Sim.keypair 1 1 w)
      as [_ Hfound].
    destruct (Hfound record (Sim.mkNode 100 [inr commitment]) eq_refl)
      as (_ & _ & Hp & Hraise).
    split; [| exact Hp].
    exact (Hraise (PyInt 500) (PyStr "[]") (PyList [])
             eq_refl eq_refl eq_refl).
Defined.

Lemma update_sets_one_pointer_witness :
  let w := Sim.world (Sim.name "alice.test" CLAIMED (Some 100)) 105
             [inr echo] in
  pointers (self (exec (update (StrTarget "ak$bob") 50 1) w))
  = PyDict [("account_pubkey", PyStr "ak$bob")] /\
  pointers (self (exec (update (OracleTarget (mkOracle (Some "ok$feed"))) 50 1)
                    w))
  = PyDict [("oracle_pubkey", PyStr "ok$feed")].
Proof.
  intros w. split.
  - pose proof (update_sets_one_pointer (StrTarget "ak$bob") 50 1 w "ak$bob"
                  "nm$alice.test" echo (Sim.mkNode 105 [])) as Hrun.
    destruct (Hrun eq_refl eq_refl eq_refl eq_refl eq_refl) as (_ & Hak & _).
    rewrite Hak; [reflexivity | exists "$bob"; reflexivity].
  - pose proof (update_sets_one_pointer
                  (OracleTarget (mkOracle (Some "ok$feed"))) 50 1 w "ok$feed"
                  "nm$alice.test" echo (Sim.mkNode 105 [])) as Hrun.
    destruct (Hrun eq_refl eq_refl eq_refl eq_refl eq_refl) as (_ & _ & Hok).
    rewrite Hok; [reflexivity | intros [rest E]; discriminate].
Defined.

Lemma update_oracle_target_witness :
  let w := Sim.world (Sim.name "alice.test" CLAIMED (Some 100)) 105
             [inr echo] in
  update (OracleTarget (mkOracle None)) 50 1 w
  = (inl (ValueError "You must register the oracle before using it as target"),
     w).
Proof.
  intros w. destruct (update_oracle_target 50 1 w) as [_ Hnone].
  exact (Hnone eq_refl).
Defined.

Lemma transfer_ownership_echo_witness :
  (let w := Sim.world (Sim.name "alice.test" CLAIMED (Some 100)) 105
              [inr rejection] in
   fst (transfer_ownership "ak$bob" 1 w)
   = inl (AENSException "transfer ownership failed" rejection) /\
   self (exec (transfer_ownership "ak$bob" 1) w) = self w) /\
  (let w := Sim.world (Sim.name "alice.test" CLAIMED (Some 100)) 105
              [inr echo] in
   fst (transfer_ownership "ak$bob" 1 w) = inr tt /\
   status (self (exec (transfer_ownership "ak$bob" 1) w)) = TRANSFERRED).
Proof.
  split; intros w.
  - pose proof (transfer_ownership_echo "ak$bob" 1 w "nm$alice.test"
                  rejection (Sim.mkNode 105 [])) as Hrun.
    destruct (Hrun eq_refl eq_refl) as (_ & Hno & _).
    exact (Hno eq_refl).
  - pose proof (transfer_ownership_echo "ak$bob" 1 w "nm$alice.test"
                  echo (Sim.mkNode 105 [])) as Hrun.
    destruct (Hrun eq_refl eq_refl) as (_ & _ & Hyes).
    destruct (Hyes eq_refl) as [E Eself].
    split; [exact E | now rewrite Eself].
Defined.

Lemma non_ascii_domain_has_no_hash_witness :
  let d := String (ascii_of_nat 233) ".test" in
  let w := Sim.world (Sim.name d CLAIMED (Some 100)) 105 [inr echo] in
  revoke 1 w = (inl UnicodeEncodeError, w) /\
  update (StrTarget "ak$bob") 50 1 w = (inl UnicodeEncodeError, w) /\
  exists n, __init__ d = inr n.
Proof.
  intros d w.
  destruct (non_ascii_domain_has_no_hash w eq_refl)
    as (Hrevoke & _ & Hupdate & Hinit).
  split; [apply Hrevoke |].
  split; [exact (Hupdate (StrTarget "ak$bob") 50 1 "ak$bob" eq_refl eq_refl) |].
  apply Hinit. exists (String (ascii_of_nat 233) ""). right. reflexivity.
Defined.

Lemma claim_without_tx_hash_witness :
  let w := Sim.world (Sim.name "alice.test" PRECLAIMED (Some 100)) 101
             [inr rejection] in
  fst (claim Sim.keypair 1 w) = inl (KeyError "tx_hash") /\
  status (self (exec (claim Sim.keypair 1) w)) = CLAIMED.
Proof.
  intros w.
  pose proof (claim_without_tx_hash Sim.keypair 1 w 100 101
                (Sim.mkNode 101 [inr rejection]) (Sim.mkNode 101 [])
                (Sim.mkNode 101 []) (PyStr "ak$alice") (PyDict rejection)
                (PyList [PyDict rejection; PyStr "sg$alice"])
                (PyStr "sg$alice") "nm$alice.test" rejection) as Hrun.
  assert (Hlt : 100 < 101) by lia.
  destruct (Hrun eq_refl eq_refl Hlt eq_refl eq_refl eq_refl eq_refl eq_refl
              eq_refl eq_refl) as (E & Es & _).
  split; assumption.
Defined.

Lemma only_blocking_claims_wait_witness :
  let w := Sim.world (Sim.name "alice.test" PRECLAIMED (Some 100)) 100
             [inr receipt] in
  exists l,
    calls (run_op (claim_op Sim.keypair 1) w) = (calls w ++ l)%list /\
    count is_wait_for_next_block l = 0%nat.
Proof.
  intros w.
  destruct (only_blocking_claims_wait (claim_op Sim.keypair 1) w)
    as (l & El & Hl).
  exists l. split; [exact El | exact (Hl eq_refl)].
Defined.
